(** * CursorFlow screen recorder: session lifecycle, timeline and storage

    A shallow embedding of the recording core of the extension:

    - [RecordingManager]     (src/background/recording-manager.js)
    - [CursorFlowRecorder]   (background/service-worker.js)
    - [ProjectManager]       (src/background/project-manager.js)
    - [StorageManager]       (src/background/storage-manager.js)

    Conventions of the embedding.

    - Every [Date.now()] of the source is an explicit integer argument (one
      argument per call site, in source order), so two readings taken by
      one function may differ.
    - A reply of a collaborator (content script, desktop-capture picker,
      [getBytesInUse]) is an explicit argument as well.
    - A function that may [throw] returns [inl message]; the state that comes
      back with it is the state at the moment of the throw.
    - Each [async] method is run to completion as one step.
    - [chrome.storage.local] is an ordered list of entries without repeated
      keys, enumerated in list order; its writes and removals do not fail. *)

From stdpp Require Import base option list gmap strings pretty sorting.

Local Open Scope Z_scope.

(** ** JavaScript helpers *)

Module Js.

(** [x || 0] on a field that is [undefined], [NaN] or an integer: both
    [undefined] and [NaN] are written [None], and both read as [0]. *)
Definition orZero (x : option Z) : Z :=
  match x with
  | Some z => z
  | None => 0
  end.

(** [x || d] on an optional string: [undefined] and the empty string are falsy. *)
Definition orString (x : option string) (d : string) : string :=
  match x with
  | Some EmptyString | None => d
  | Some s => s
  end.

(** [x || d] on an optional number: [undefined] and [0] are falsy. *)
Definition orNumber (x : option Z) (d : Z) : Z :=
  match x with
  | Some 0 | None => d
  | Some z => z
  end.

(** [s.startsWith(p)] *)
Fixpoint startsWith (p s : string) : bool :=
  match p, s with
  | EmptyString, _ => true
  | String a p', String b s' => if decide (a = b) then startsWith p' s' else false
  | String _ _, EmptyString => false
  end.

(** [s.includes(p)] *)
Fixpoint includes (p s : string) : bool :=
  startsWith p s ||
  match s with
  | EmptyString => false
  | String _ s' => includes p s'
  end.

Fixpoint dropChars (n : nat) (s : string) : string :=
  match n, s with
  | O, _ => s
  | S n', String _ s' => dropChars n' s'
  | S _, EmptyString => EmptyString
  end.

(** [s.replace(p, r)] with a string pattern: the first occurrence only. *)
Fixpoint replace (p r s : string) : string :=
  if startsWith p s then r +:+ dropChars (String.length p) s
  else match s with
       | EmptyString => EmptyString
       | String a s' => String a (replace p r s')
       end.

(** [a.slice(0, n)] *)
Definition slice0 {A} (n : nat) (a : list A) : list A := take n a.

(** [a.slice(n)] *)
Definition sliceFrom {A} (n : nat) (a : list A) : list A := drop n a.

(** The decimal rendering of an integer inside a template literal. *)
Definition num (z : Z) : string := pretty z.

(** [a.sort((x, y) => key(x) - key(y))]: a stable sort, ascending in [key]. *)
Fixpoint insertBy {A} (key : A → Z) (x : A) (l : list A) : list A :=
  match l with
  | [] => [x]
  | y :: l' => if decide (key y ≤ key x) then y :: insertBy key x l' else x :: l
  end.

Definition sortBy {A} (key : A → Z) (l : list A) : list A :=
  foldl (λ acc x, insertBy key x acc) [] l.

End Js.

(** ** chrome.storage.local *)

Module Store.

(** [result[key]] after [chrome.storage.local.get(key)] *)
Fixpoint get {V} (k : string) (s : list (string * V)) : option V :=
  match s with
  | [] => None
  | (k', v) :: s' => if decide (k' = k) then Some v else get k s'
  end.

(** [chrome.storage.local.set({[key]: v})]: an existing key keeps its place,
    a new key goes last. *)
Fixpoint set {V} (k : string) (v : V) (s : list (string * V)) : list (string * V) :=
  match s with
  | [] => [(k, v)]
  | (k', v') :: s' =>
      if decide (k' = k) then (k, v) :: s' else (k', v') :: set k v s'
  end.

(** [chrome.storage.local.remove(keys)] *)
Definition remove {V} (ks : list string) (s : list (string * V)) : list (string * V) :=
  filter (λ e, e.1 ∉ ks) s.

(** [Object.keys(allData)] *)
Definition keys {V} (s : list (string * V)) : list string := s.*1.

End Store.

(** ** Records shared by the managers *)

Module Data.

(** The settings snapshot of a session. Numbers are integers here. *)
Record Settings := {
  quality : string;
  fps : Z;
  autoZoom : bool;
  zoomLevel : Z;
  zoomDuration : Z }.

(** A video chunk as the capture side hands it over. [sequenceIndex] is the
    chunk's position in capture order; it is not a property of the JS [Blob]
    and no function of the program reads it. *)
Record Blob := {
  sequenceIndex : nat;
  blobSize : Z;
  blobType : string;
  blobData : string }.

(** The [data] of a CURSOR_EVENT message (content/cursor-tracker.js,
    [sendCursorEvent]). *)
Record EventData := {
  sessionId : string;
  eventType : string;
  rawTimestamp : Z;
  payload : string }.

(** [{...eventData, timestamp, relativeTime}] *)
Record CursorEvent := {
  eventData : EventData;
  timestamp : Z;
  relativeTime : Z }.

Record VideoSegment := {
  segmentId : string;
  segStartTime : Z;
  segDuration : Z;
  blobId : string;
  segSize : Z;
  segType : string }.

Record Timeline := {
  tlDuration : option Z;
  tlCursorEvents : list CursorEvent;
  videoSegments : list VideoSegment }.

Record ExportInfo := {
  formats : list string;
  exportQuality : string;
  resolution : string }.

(** A project object. An absent or [NaN] number is [None]; an absent [id]
    is the empty string (both are falsy). *)
Record Project := {
  projectId : string;
  name : string;
  createdAt : option Z;
  updatedAt : option Z;
  duration : option Z;
  settings : Settings;
  timeline : Timeline;
  export : ExportInfo;
  thumbnail : option string;
  savedAt : option Z;
  lastAccessed : option Z;
  importedAt : option Z }.

(** The value stored under [blob_<blobId>]. *)
Record BlobRecord := {
  recData : string;
  recType : string;
  recSize : Z;
  recCreatedAt : option Z }.

(** An entry of [recent_projects]. *)
Record ProjectSummary := {
  sumId : string;
  sumName : string;
  sumCreatedAt : option Z;
  sumUpdatedAt : option Z;
  sumDuration : option Z;
  sumThumbnail : option string }.

(** The settings object of the popup (popup/popup.js, [getSettings]). *)
Record CaptureSettings := {
  capQuality : string;
  capWidth : Z;
  capHeight : Z;
  capFps : Z;
  capAutoZoom : bool;
  capTimestamp : Z }.

(** [{...eventData, sessionId, timestamp}] of background/service-worker.js *)
Record RecordedEvent := {
  revData : EventData;
  revSessionId : string;
  revTimestamp : Z }.

(** The value stored under [recording_<id>]. *)
Record Recording := {
  recordingId : string;
  recTimestamp : Z;
  recSettings : CaptureSettings;
  recDuration : Z;
  recCursorEvents : list RecordedEvent;
  videoData : option string;
  size : Z;
  mimeType : string;
  error : option string }.

(** An entry of [recordings_list]. *)
Record RecordingSummary := {
  rsId : string;
  rsTimestamp : Z;
  rsDuration : Z;
  rsSize : Z;
  rsSettings : CaptureSettings }.

Record CleanupStats := {
  totalCleanups : Z;
  totalItemsFreed : Z;
  lastCleanup : option Z }.

(** What a key of [chrome.storage.local] can hold. *)
Inductive Value :=
| VProject (p : Project)
| VBlob (b : BlobRecord)
| VRecentProjects (l : list ProjectSummary)
| VRecording (r : Recording)
| VRecordingsList (l : list RecordingSummary)
| VCleanupStats (c : CleanupStats)
| VNumber (z : Z)
| VOther (json : string).

Definition Storage := list (string * Value).

End Data.

(** ** src/background/recording-manager.js *)

Module RecordingManager.
Import Data.

(** [session.state]; [errored] is the string ['error']. *)
Inductive SessionState :=
| starting | recording | paused | stopping | stopped | errored.

#[global] Instance SessionState_eq_dec : EqDecision SessionState.
Proof. solve_decision. Defined.

(** A session object. [pauseTime], [endTime] and [totalPauseDuration] are
    absent until first assigned. [totalPauseDuration] is only ever read as
    [session.totalPauseDuration || 0], so [None] also stands for [NaN]. *)
Record Session := {
  id : string;
  tabId : Z;
  streamId : string;
  startTime : Z;
  state : SessionState;
  cursorEvents : list CursorEvent;
  videoBlobs : list Blob;
  sessionSettings : Settings;
  endTime : option Z;
  pauseTime : option Z;
  totalPauseDuration : option Z }.

(** [options.settings]: the keys it carries override the defaults. *)
Record Options_settings := {
  setQuality : option string;
  setFps : option Z;
  setAutoZoom : option bool;
  setZoomLevel : option Z;
  setZoomDuration : option Z }.

(** The [options] of [startRecording]. *)
Record Options := {
  optTabId : Z;
  optStreamId : string;
  optQuality : option string;
  optFps : option Z;
  optAutoZoom : option bool;
  optZoomLevel : option Z;
  optZoomDuration : option Z;
  optSettings : Options_settings }.

Inductive TabAction :=
| INIT_MEDIA_RECORDER | START_CURSOR_TRACKING | STOP_MEDIA_RECORDER
| STOP_CURSOR_TRACKING | PAUSE_RECORDING | RESUME_RECORDING.

(** One [chrome.tabs.sendMessage(tabId, {action, data: {sessionId, ...}})]. *)
Record TabMessage := {
  toTab : Z;
  action : TabAction;
  aboutSession : string }.

(** The manager object, with the messages it has sent so far. *)
Record Manager := {
  activeSessions : gmap string Session;
  recordingId : Z;
  outbox : list TabMessage }.

Definition constructor : Manager :=
  {| activeSessions := ∅; recordingId := 0; outbox := [] |}.

(** The content script's reply to a message, as the callback sees it. *)
Record Reply := {
  success : bool;
  replyError : option string;
  replyBlobs : option (list Blob) }.

(** How the wait inside [initializeMediaRecorder] ends. *)
Inductive InitOutcome :=
| InitTimeout                        (* the 15 s timer fires first *)
| InitSendThrows (message : string)  (* [sendMessage] itself throws *)
| InitLastError (message : string)   (* [chrome.runtime.lastError] is set *)
| InitReply (response : option Reply).

(** [{quality: options.quality || 'high', ..., ...options.settings}] *)
Definition mkSettings (o : Options) : Settings :=
  let p := optSettings o in
  {| quality := default (Js.orString (optQuality o) "high") (setQuality p);
     fps := default (Js.orNumber (optFps o) 30) (setFps p);
     autoZoom := default (default true (optAutoZoom o)) (setAutoZoom p);
     zoomLevel := default (Js.orNumber (optZoomLevel o) 2) (setZoomLevel p);
     zoomDuration :=
       default (Js.orNumber (optZoomDuration o) 300) (setZoomDuration p) |}.

Definition send (tab : Z) (a : TabAction) (sid : string) (m : Manager) : Manager :=
  {| activeSessions := activeSessions m;
     recordingId := recordingId m;
     outbox := outbox m ++ [{| toTab := tab; action := a; aboutSession := sid |}] |}.

Definition withSessions (f : gmap string Session → gmap string Session)
    (m : Manager) : Manager :=
  {| activeSessions := f (activeSessions m);
     recordingId := recordingId m;
     outbox := outbox m |}.

Definition initializeMediaRecorder (o : InitOutcome) : string + () :=
  match o with
  | InitTimeout => inl "Media recorder initialization timeout after 15 seconds"
  | InitSendThrows e => inl ("Failed to communicate with content script: " +:+ e)
  | InitLastError e => inl ("Content script communication failed: " +:+ e)
  | InitReply (Some r) =>
      if success r then inr ()
      else inl (Js.orString (replyError r)
                  "Content script failed to initialize media recorder")
  | InitReply None => inl "Content script failed to initialize media recorder"
  end.

Definition setState (st : SessionState) (s : Session) : Session :=
  {| id := id s; tabId := tabId s; streamId := streamId s;
     startTime := startTime s; state := st;
     cursorEvents := cursorEvents s; videoBlobs := videoBlobs s;
     sessionSettings := sessionSettings s; endTime := endTime s;
     pauseTime := pauseTime s; totalPauseDuration := totalPauseDuration s |}.

(** [startRecording(options)]. [nowId] is the clock reading inside the
    session id, [nowStart] the one stored as [startTime]. *)
Definition startRecording (options : Options) (nowId nowStart : Z)
    (init : InitOutcome) (m : Manager) : Manager * (string + Session) :=
  let rid := recordingId m + 1 in
  let sessionId := "session_" +:+ Js.num rid +:+ "_" +:+ Js.num nowId in
  let session :=
    {| id := sessionId; tabId := optTabId options;
       streamId := optStreamId options; startTime := nowStart;
       state := starting; cursorEvents := []; videoBlobs := [];
       sessionSettings := mkSettings options; endTime := None;
       pauseTime := None; totalPauseDuration := None |} in
  let m1 :=
    {| activeSessions := <[sessionId := session]> (activeSessions m);
       recordingId := rid; outbox := outbox m |} in
  let m2 :=
    match init with
    | InitSendThrows _ => m1
    | _ => send (tabId session) INIT_MEDIA_RECORDER sessionId m1
    end in
  match initializeMediaRecorder init with
  | inl e => (withSessions (delete sessionId) m2, inl e)
  | inr _ =>
      let m3 := send (tabId session) START_CURSOR_TRACKING sessionId m2 in
      let session' := setState recording session in
      (withSessions (insert sessionId session') m3, inr session')
  end.

(** [storeBlobData(blobId, blob)]: the data URL read from the blob goes under
    [blob_<blobId>]. *)
Definition storeBlobData (blobId : string) (blob : Blob) (now : Z)
    (st : Storage) : Storage :=
  Store.set ("blob_" +:+ blobId)
    (VBlob {| recData := blobData blob; recType := blobType blob;
              recSize := blobSize blob; recCreatedAt := Some now |}) st.

(** The loop [for (let i = 0; i < session.videoBlobs.length; i++)] of
    [generateProjectData], from index [i] on; [blobNow k] is the clock reading
    taken while blob [k] is stored. *)
Fixpoint storeBlobs (sid : string) (blobNow : nat → Z) (i : nat)
    (blobs : list Blob) (st : Storage) : Storage :=
  match blobs with
  | [] => st
  | b :: rest =>
      storeBlobs sid blobNow (S i) rest
        (storeBlobData (sid +:+ "_" +:+ Js.num (Z.of_nat i)) b (blobNow i) st)
  end.

(** The callback of [session.videoBlobs.map((blob, index) => ...)]. *)
Definition mkSegment (sid : string) (index : nat) (blob : Blob) : VideoSegment :=
  {| segmentId := "segment_" +:+ Js.num (Z.of_nat index);
     segStartTime := Z.of_nat index * 1000;
     segDuration := 1000;
     blobId := sid +:+ "_" +:+ Js.num (Z.of_nat index);
     segSize := blobSize blob;
     segType := blobType blob |}.

(** [session.endTime - session.startTime] *)
Definition span (session : Session) : option Z :=
  (λ e, e - startTime session) <$> endTime session.

(** [generateProjectData(session)]. [localeNow] is
    [new Date().toLocaleString()], [nowUpdated] the reading for [updatedAt]. *)
Definition generateProjectData (session : Session) (localeNow : string)
    (nowUpdated : Z) (blobNow : nat → Z) (st : Storage) : Storage * Project :=
  let project :=
    {| projectId := "project_" +:+ id session;
       name := "Recording " +:+ localeNow;
       createdAt := Some (startTime session);
       updatedAt := Some nowUpdated;
       duration := span session;
       settings := sessionSettings session;
       timeline :=
         {| tlDuration := span session;
            tlCursorEvents := cursorEvents session;
            videoSegments := imap (mkSegment (id session)) (videoBlobs session) |};
       export :=
         {| formats := ["mp4"; "webm"];
            exportQuality := quality (sessionSettings session);
            resolution := "1920x1080" |};
       thumbnail := None; savedAt := None; lastAccessed := None;
       importedAt := None |} in
  (storeBlobs (id session) blobNow 0 (videoBlobs session) st, project).

(** [stopMediaRecorder(session)]: the blobs to keep, or the rejection. *)
Definition stopMediaRecorder (response : option Reply) : string + list Blob :=
  match response with
  | Some r =>
      if success r then inr (default [] (replyBlobs r))
      else inl (Js.orString (replyError r) "Failed to stop media recorder")
  | None => inl "Failed to stop media recorder"
  end.

Definition setStopping (nowEnd : Z) (s : Session) : Session :=
  {| id := id s; tabId := tabId s; streamId := streamId s;
     startTime := startTime s; state := stopping;
     cursorEvents := cursorEvents s; videoBlobs := videoBlobs s;
     sessionSettings := sessionSettings s; endTime := Some nowEnd;
     pauseTime := pauseTime s; totalPauseDuration := totalPauseDuration s |}.

Definition setVideoBlobs (blobs : list Blob) (s : Session) : Session :=
  {| id := id s; tabId := tabId s; streamId := streamId s;
     startTime := startTime s; state := state s;
     cursorEvents := cursorEvents s; videoBlobs := blobs;
     sessionSettings := sessionSettings s; endTime := endTime s;
     pauseTime := pauseTime s; totalPauseDuration := totalPauseDuration s |}.

(** What [stopRecording] resolves to. *)
Record StopResult := {
  stopSuccess : bool;
  stopSessionId : string;
  stopDuration : option Z;
  projectData : Project }.

(** [stopRecording(sessionId)]. [nowEnd] is the reading stored as [endTime];
    [response] is the content script's reply to STOP_MEDIA_RECORDER. *)
Definition stopRecording (sessionId : string) (nowEnd : Z)
    (response : option Reply) (localeNow : string) (nowUpdated : Z)
    (blobNow : nat → Z) (w : Manager * Storage)
    : (Manager * Storage) * (string + StopResult) :=
  let '(m, st) := w in
  match activeSessions m !! sessionId with
  | None => (w, inl ("Recording session not found: " +:+ sessionId))
  | Some session0 =>
      let session1 := setStopping nowEnd session0 in
      let m1 := send (tabId session1) STOP_MEDIA_RECORDER (id session1)
                  (withSessions (insert sessionId session1) m) in
      match stopMediaRecorder response with
      | inl e =>
          ((withSessions (insert sessionId (setState errored session1)) m1, st),
           inl e)
      | inr blobs =>
          let session2 := setVideoBlobs blobs session1 in
          let m2 := send (tabId session2) STOP_CURSOR_TRACKING (id session2) m1 in
          let '(st', project) :=
            generateProjectData session2 localeNow nowUpdated blobNow st in
          ((withSessions (delete sessionId) m2, st'),
           inr {| stopSuccess := true; stopSessionId := sessionId;
                  stopDuration := span session2; projectData := project |})
      end
  end.

Definition setPaused (now : Z) (s : Session) : Session :=
  {| id := id s; tabId := tabId s; streamId := streamId s;
     startTime := startTime s; state := paused;
     cursorEvents := cursorEvents s; videoBlobs := videoBlobs s;
     sessionSettings := sessionSettings s; endTime := endTime s;
     pauseTime := Some now; totalPauseDuration := totalPauseDuration s |}.

(** The two assignments of [resumeRecording]. With [pauseTime] absent the
    difference [Date.now() - session.pauseTime] is [NaN], and so is the sum. *)
Definition setResumed (now : Z) (s : Session) : Session :=
  {| id := id s; tabId := tabId s; streamId := streamId s;
     startTime := startTime s; state := recording;
     cursorEvents := cursorEvents s; videoBlobs := videoBlobs s;
     sessionSettings := sessionSettings s; endTime := endTime s;
     pauseTime := pauseTime s;
     totalPauseDuration :=
       match pauseTime s with
       | Some p => Some (Js.orZero (totalPauseDuration s) + (now - p))
       | None => None
       end |}.

Definition pushCursorEvent (e : CursorEvent) (s : Session) : Session :=
  {| id := id s; tabId := tabId s; streamId := streamId s;
     startTime := startTime s; state := state s;
     cursorEvents := cursorEvents s ++ [e]; videoBlobs := videoBlobs s;
     sessionSettings := sessionSettings s; endTime := endTime s;
     pauseTime := pauseTime s; totalPauseDuration := totalPauseDuration s |}.

(** [{ success: true, state }] of [pauseRecording] and [resumeRecording]. *)
Record Transition := {
  transitionSuccess : bool;
  newState : SessionState }.

(** [pauseRecording(sessionId)] *)
Definition pauseRecording (sessionId : string) (now : Z) (m : Manager)
    : Manager * (string + Transition) :=
  match activeSessions m !! sessionId with
  | Some session =>
      if decide (state session = recording) then
        (send (tabId session) PAUSE_RECORDING sessionId
           (withSessions (insert sessionId (setPaused now session)) m),
         inr {| transitionSuccess := true; newState := paused |})
      else (m, inl "Invalid session state for pause")
  | None => (m, inl "Invalid session state for pause")
  end.

(** [resumeRecording(sessionId)] *)
Definition resumeRecording (sessionId : string) (now : Z) (m : Manager)
    : Manager * (string + Transition) :=
  match activeSessions m !! sessionId with
  | Some session =>
      if decide (state session = paused) then
        (send (tabId session) RESUME_RECORDING sessionId
           (withSessions (insert sessionId (setResumed now session)) m),
         inr {| transitionSuccess := true; newState := recording |})
      else (m, inl "Invalid session state for resume")
  | None => (m, inl "Invalid session state for resume")
  end.

(** What [addCursorEvent] resolves to: [{success: true}] or
    [{success: false, error}]. *)
Inductive AddResult :=
| Added
| NotAdded (error : string).

(** [addCursorEvent(eventData)]. [nowTimestamp] and [nowRelative] are the two
    clock readings, the first for [timestamp], the second for [relativeTime]. *)
Definition addCursorEvent (data : EventData) (nowTimestamp nowRelative : Z)
    (m : Manager) : Manager * AddResult :=
  match activeSessions m !! sessionId data with
  | None => (m, NotAdded "Session not found")
  | Some session =>
      let event :=
        {| eventData := data;
           timestamp := nowTimestamp - startTime session;
           relativeTime :=
             nowRelative - startTime session
             - Js.orZero (totalPauseDuration session) |} in
      (withSessions (insert (sessionId data) (pushCursorEvent event session)) m,
       Added)
  end.

(** [isRecording(tabId)]: the loop over [this.activeSessions.values()]. The
    [Map] is a [gmap] here, so its enumeration stands for the insertion
    order of the source. *)
Definition isRecording (tab : Z) (m : Manager) : bool :=
  existsb (λ s, bool_decide (tabId s = tab ∧ state s = recording))
    (map_to_list (activeSessions m)).*2.

(** What one [stopRecording] inside [cleanupTab] reads from outside: the
    clock readings, the content script's reply and the locale string. *)
Record StopInputs := {
  atEnd : Z;
  stopResponse : option Reply;
  atLocale : string;
  atUpdated : Z;
  atBlob : nat → Z }.

(** The body of the second loop of [cleanupTab]: [stopRecording], and on a
    throw [this.activeSessions.delete(sessionId)]. *)
Definition cleanupSession (inputs : string → StopInputs)
    (w : Manager * Storage) (sessionId : string) : Manager * Storage :=
  let i := inputs sessionId in
  match stopRecording sessionId (atEnd i) (stopResponse i) (atLocale i)
          (atUpdated i) (atBlob i) w with
  | (w', inr _) => w'
  | ((m', st'), inl _) => (withSessions (delete sessionId) m', st')
  end.

(** [sessionsToCleanup] of [cleanupTab] *)
Definition sessionsToCleanup (tab : Z) (m : Manager) : list string :=
  (filter (λ e : string * Session, tabId e.2 = tab)
     (map_to_list (activeSessions m))).*1.

(** [cleanupTab(tabId)] *)
Definition cleanupTab (tab : Z) (inputs : string → StopInputs)
    (w : Manager * Storage) : Manager * Storage :=
  foldl (cleanupSession inputs) w (sessionsToCleanup tab w.1).

End RecordingManager.

(** ** background/service-worker.js *)

Module CursorFlowRecorder.
Import Data.

(** [this.currentSession] *)
Record CurrentSession := {
  id : string;
  startTime : Z;
  sessionSettings : CaptureSettings }.

(** An element of [this.recordedChunks]: the message's [Blob], or the
    [Uint8Array] built over its buffer. *)
Inductive RecordedChunk :=
| BlobChunk (b : Blob)
| BufferChunk (b : Blob).

Definition chunkBlob (c : RecordedChunk) : Blob :=
  match c with
  | BlobChunk b | BufferChunk b => b
  end.

(** [message.data] of a RECORD_CHUNK message. *)
Inductive ChunkMessage :=
| DataBlob (b : Blob)      (* [message.data instanceof Blob] *)
| DataBuffer (b : Blob)    (* any other truthy [message.data] *)
| DataMissing.             (* falsy [message.data] *)

Record Recorder := {
  isRecording : bool;
  currentSession : option CurrentSession;
  recordedChunks : list RecordedChunk;
  cursorEvents : list RecordedEvent;
  settings : option CaptureSettings }.

Definition constructor : Recorder :=
  {| isRecording := false; currentSession := None; recordedChunks := [];
     cursorEvents := []; settings := None |}.

(** The [case 'RECORD_CHUNK'] of [handleMessage]. *)
Definition recordChunk (data : ChunkMessage) (r : Recorder) : Recorder :=
  match data with
  | DataBlob b =>
      {| isRecording := isRecording r; currentSession := currentSession r;
         recordedChunks := recordedChunks r ++ [BlobChunk b];
         cursorEvents := cursorEvents r; settings := settings r |}
  | DataBuffer b =>
      {| isRecording := isRecording r; currentSession := currentSession r;
         recordedChunks := recordedChunks r ++ [BufferChunk b];
         cursorEvents := cursorEvents r; settings := settings r |}
  | DataMissing => r
  end.


(** [chrome.tabs.query({active: true, currentWindow: true})] *)
Inductive TabsOutcome :=
| QueryThrows (message : string)
| Tabs (first : option Z).

(** [requestScreenCapture(tab)]: the picker's callback. An empty [streamId]
    is what the picker passes when the user declines. *)
Inductive CaptureOutcome :=
| CaptureLastError (message : string)
| CaptureStream (streamId : string).

(** [chrome.scripting.executeScript] inside [initializeRecording] *)
Inductive InjectOutcome :=
| InjectThrows (message : string)
| Injected.

(** What [startRecording] resolves to. *)
Inductive StartResult :=
| Started (sessionId : string)
| StartFailed (error : string).

Definition failedStart (r : Recorder) : Recorder :=
  {| isRecording := false; currentSession := None;
     recordedChunks := recordedChunks r; cursorEvents := cursorEvents r;
     settings := settings r |}.

(** [startRecording(settings)]. The class body defines the method twice; the
    second definition (the one with the screen-capture request) is the one
    the class ends up with, and the one embedded here. *)
Definition startRecording (s : CaptureSettings) (nowId nowStart : Z)
    (tabs : TabsOutcome) (capture : CaptureOutcome) (inject : InjectOutcome)
    (r : Recorder) : Recorder * StartResult :=
  if isRecording r then (r, StartFailed "Already recording")
  else
    let cs := {| id := "recording_" +:+ Js.num nowId; startTime := nowStart;
                 sessionSettings := s |} in
    let r1 := {| isRecording := isRecording r; currentSession := Some cs;
                 recordedChunks := recordedChunks r;
                 cursorEvents := cursorEvents r; settings := Some s |} in
    match tabs with
    | QueryThrows e => (failedStart r1, StartFailed e)
    | Tabs tab =>
        match capture with
        | CaptureLastError e => (failedStart r1, StartFailed e)
        | CaptureStream EmptyString =>
            (r1, StartFailed "Screen capture permission denied")
        | CaptureStream _ =>
            match tab, inject with
            | None, _ =>
                (failedStart r1,
                 StartFailed "Cannot read properties of undefined (reading 'id')")
            | Some _, InjectThrows e =>
                (failedStart r1,
                 StartFailed ("Failed to initialize recording: " +:+ e))
            | Some _, Injected =>
                ({| isRecording := true; currentSession := Some cs;
                    recordedChunks := []; cursorEvents := [];
                    settings := Some s |},
                 Started (id cs))
            end
        end
    end.

(** [saveToStorage(recording)] *)
Definition saveToStorage (recording : Recording) (st : Storage) : Storage :=
  let st1 := Store.set ("recording_" +:+ recordingId recording)
               (VRecording recording) st in
  let recordingsList :=
    match Store.get "recordings_list" st1 with
    | Some (VRecordingsList l) => l
    | _ => []
    end in
  let unshifted :=
    {| rsId := recordingId recording; rsTimestamp := recTimestamp recording;
       rsDuration := recDuration recording; rsSize := size recording;
       rsSettings := recSettings recording |} :: recordingsList in
  Store.set "recordings_list" (VRecordingsList (Js.slice0 10 unshifted)) st1.

(** [new Blob(this.recordedChunks, {type: 'video/webm'}).size] *)
Definition combinedSize (chunks : list RecordedChunk) : Z :=
  foldr (λ c acc, blobSize (chunkBlob c) + acc) 0 chunks.

(** The data URL [blobToBase64] reads from the combined blob. *)
Definition combinedData (chunks : list RecordedChunk) : string :=
  foldr (λ c acc, blobData (chunkBlob c) +:+ acc) "" chunks.

(** [saveRecording()] *)
Definition saveRecording (now : Z) (r : Recorder) (st : Storage)
    : Storage * (string + string) :=
  match currentSession r, recordedChunks r with
  | None, _ | _, [] => (st, inl "No recording data to save")
  | Some cs, chunks =>
      let recording :=
        {| recordingId := id cs; recTimestamp := startTime cs;
           recSettings := sessionSettings cs;
           recDuration := now - startTime cs;
           recCursorEvents := cursorEvents r;
           videoData := Some (combinedData chunks);
           size := combinedSize chunks;
           mimeType := "video/webm";
           error := None |} in
      (saveToStorage recording st, inr (recordingId recording))
  end.

(** [saveEmptyRecording()] *)
Definition saveEmptyRecording (now : Z) (r : Recorder) (st : Storage)
    : Storage * (string + string) :=
  match currentSession r with
  | None => (st, inl "Cannot read properties of null (reading 'id')")
  | Some cs =>
      let recording :=
        {| recordingId := id cs; recTimestamp := startTime cs;
           recSettings := sessionSettings cs;
           recDuration := now - startTime cs;
           recCursorEvents := cursorEvents r;
           videoData := None;
           size := 0;
           mimeType := "video/webm";
           error := Some "No video data received" |} in
      (saveToStorage recording st, inr (recordingId recording))
  end.

(** [this.openRecordingViewer(id)]: the class has no member of this name, so
    the call expression throws a TypeError. *)
Definition openRecordingViewer (recordingId : string) : string + () :=
  inl "this.openRecordingViewer is not a function".

(** What [stopRecording] resolves to. *)
Inductive StopResult :=
| Stopped (sessionId recordingId : string)
| StopFailed (error : string).

Definition failedStop (r : Recorder) : Recorder :=
  {| isRecording := false; currentSession := None;
     recordedChunks := recordedChunks r; cursorEvents := cursorEvents r;
     settings := settings r |}.

(** [stopRecording()]. [late] are the RECORD_CHUNK messages handled during the
    2 s wait; [now] is the clock reading of the save. *)
Definition stopRecording (late : list ChunkMessage) (now : Z)
    (w : Recorder * Storage) : (Recorder * Storage) * StopResult :=
  let '(r, st) := w in
  if negb (isRecording r) then (w, StopFailed "Not recording")
  else
    match currentSession r with
    | None =>
        ((failedStop r, st),
         StopFailed "Cannot read properties of null (reading 'id')")
    | Some cs =>
        let r1 := foldl (λ acc d, recordChunk d acc) r late in
        let '(st1, saved) :=
          match recordedChunks r1 with
          | [] => saveEmptyRecording now r1 st
          | _ :: _ => saveRecording now r1 st
          end in
        match saved with
        | inl e => ((failedStop r1, st1), StopFailed e)
        | inr savedRecordingId =>
            let r2 := failedStop r1 in
            match savedRecordingId with
            | EmptyString => ((r2, st1), Stopped (id cs) savedRecordingId)
            | _ =>
                match openRecordingViewer savedRecordingId with
                | inl e => ((r2, st1), StopFailed e)
                | inr _ => ((r2, st1), Stopped (id cs) savedRecordingId)
                end
            end
        end
    end.

(** [getRecordings()] *)
Definition getRecordings (st : Storage) : list RecordingSummary :=
  match Store.get "recordings_list" st with
  | Some (VRecordingsList l) => l
  | _ => []
  end.

(** [deleteRecording(recordingId)] *)
Definition deleteRecording (recordingId : string) (st : Storage) : Storage :=
  let st1 := Store.remove ["recording_" +:+ recordingId] st in
  let recordingsList :=
    match Store.get "recordings_list" st1 with
    | Some (VRecordingsList l) => l
    | _ => []
    end in
  Store.set "recordings_list"
    (VRecordingsList (filter (λ r, rsId r ≠ recordingId) recordingsList)) st1.

End CursorFlowRecorder.

(** ** The content script's tracker (the [CursorTracker] class that follows
    the recorder in background/service-worker.js) *)

Module CursorTracker.
Import Data.

(** [this.mediaRecorder.state] *)
Inductive MediaState := inactive | capturing | held.

(** The tracker object: the fields the tracking methods use, and the
    CURSOR_EVENT messages it has sent so far. [mediaRecorder] is [None]
    while the field is [null]; [capturing] and [held] are the recorder
    states ['recording'] and ['paused']. *)
Record Tracker := {
  isTracking : bool;
  sessionId : option string;
  mediaRecorder : option MediaState;
  lastEventTime : Z;
  sentEvents : list EventData }.

Definition throttleDelay : Z := 16.

Definition constructor : Tracker :=
  {| isTracking := false; sessionId := None; mediaRecorder := None;
     lastEventTime := 0; sentEvents := [] |}.

(** [{ success: true }] or [{ success: false, error }] *)
Inductive Answer :=
| Done
| Refused (error : string).

(** [startCursorTracking(data)] *)
Definition startCursorTracking (sid : string) (t : Tracker) : Tracker * Answer :=
  if isTracking t then (t, Refused "Already tracking")
  else
    ({| isTracking := true; sessionId := Some sid;
        mediaRecorder := mediaRecorder t; lastEventTime := lastEventTime t;
        sentEvents := sentEvents t |}, Done).

(** [stopCursorTracking(data)] *)
Definition stopCursorTracking (t : Tracker) : Tracker * Answer :=
  if isTracking t then
    ({| isTracking := false; sessionId := sessionId t;
        mediaRecorder := mediaRecorder t; lastEventTime := lastEventTime t;
        sentEvents := sentEvents t |}, Done)
  else (t, Refused "Not tracking").

(** [pauseRecording(data)] *)
Definition pauseRecording (t : Tracker) : Tracker :=
  {| isTracking := false; sessionId := sessionId t;
     mediaRecorder :=
       match mediaRecorder t with
       | Some capturing => Some held
       | other => other
       end;
     lastEventTime := lastEventTime t; sentEvents := sentEvents t |}.

(** [resumeRecording(data)] *)
Definition resumeRecording (t : Tracker) : Tracker :=
  {| isTracking := true; sessionId := sessionId t;
     mediaRecorder :=
       match mediaRecorder t with
       | Some held => Some capturing
       | other => other
       end;
     lastEventTime := lastEventTime t; sentEvents := sentEvents t |}.

(** [shouldRecordEvent()] with clock reading [now] *)
Definition shouldRecordEvent (now : Z) (t : Tracker) : Tracker * bool :=
  if decide (now - lastEventTime t < throttleDelay) then (t, false)
  else
    ({| isTracking := isTracking t; sessionId := sessionId t;
        mediaRecorder := mediaRecorder t; lastEventTime := now;
        sentEvents := sentEvents t |}, true).

(** [sendCursorEvent(eventData)]: [kind] and [details] are the [type] and
    the other fields of [eventData], [now] the reading for [timestamp]. *)
Definition sendCursorEvent (kind details : string) (now : Z) (t : Tracker)
    : Tracker :=
  match isTracking t, sessionId t with
  | true, Some (String a sid) =>
      {| isTracking := isTracking t; sessionId := sessionId t;
         mediaRecorder := mediaRecorder t; lastEventTime := lastEventTime t;
         sentEvents :=
           sentEvents t ++
           [{| Data.sessionId := String a sid; eventType := kind;
               rawTimestamp := now; payload := details |}] |}
  | _, _ => t
  end.

(** [handleMouseMove(event)]: [nowCheck] is read by [shouldRecordEvent],
    [nowSend] by [sendCursorEvent]. *)
Definition handleMouseMove (details : string) (nowCheck nowSend : Z)
    (t : Tracker) : Tracker :=
  let '(t1, ok) := shouldRecordEvent nowCheck t in
  if ok then sendCursorEvent "mousemove" details nowSend t1 else t1.

(** [handleMouseDown(event)] *)
Definition handleMouseDown (details : string) (now : Z) (t : Tracker) : Tracker :=
  sendCursorEvent "mousedown" details now t.

End CursorTracker.

(** ** src/background/project-manager.js *)

Module ProjectManager.
Import Data.

Definition maxProjects : nat := 100.
Definition maxProjectAge : Z := 30 * 24 * 60 * 60 * 1000.

Definition setSavedAt (now : Z) (p : Project) : Project :=
  {| projectId := projectId p; name := name p; createdAt := createdAt p;
     updatedAt := updatedAt p; duration := duration p; settings := settings p;
     timeline := timeline p; export := export p; thumbnail := thumbnail p;
     savedAt := Some now; lastAccessed := lastAccessed p;
     importedAt := importedAt p |}.

Definition setLastAccessed (now : Z) (p : Project) : Project :=
  {| projectId := projectId p; name := name p; createdAt := createdAt p;
     updatedAt := updatedAt p; duration := duration p; settings := settings p;
     timeline := timeline p; export := export p; thumbnail := thumbnail p;
     savedAt := savedAt p; lastAccessed := Some now;
     importedAt := importedAt p |}.

(** [result.recent_projects || []] *)
Definition recentProjects (st : Storage) : list ProjectSummary :=
  match Store.get "recent_projects" st with
  | Some (VRecentProjects l) => l
  | _ => []
  end.

(** The entry [updateRecentProjects] puts in front. *)
Definition summary (p : Project) : ProjectSummary :=
  {| sumId := projectId p; sumName := name p; sumCreatedAt := createdAt p;
     sumUpdatedAt := updatedAt p; sumDuration := duration p;
     sumThumbnail :=
       match thumbnail p with
       | Some EmptyString | None => None
       | Some t => Some t
       end |}.

(** [updateRecentProjects(projectData)] *)
Definition updateRecentProjects (p : Project) (st : Storage) : Storage :=
  let filtered := filter (λ q, sumId q ≠ projectId p) (recentProjects st) in
  let unshifted := summary p :: filtered in
  Store.set "recent_projects" (VRecentProjects (Js.slice0 20 unshifted)) st.

(** [removeFromRecentProjects(projectId)] *)
Definition removeFromRecentProjects (pid : string) (st : Storage) : Storage :=
  Store.set "recent_projects"
    (VRecentProjects (filter (λ q, sumId q ≠ pid) (recentProjects st))) st.

(** The keys [deleteProjectBlobs] collects. *)
Definition projectBlobKeys (pid : string) (st : Storage) : list string :=
  filter (λ k, Js.startsWith "blob_" k && Js.includes pid k) (Store.keys st).

(** [deleteProjectBlobs(projectId)] *)
Definition deleteProjectBlobs (pid : string) (st : Storage) : Storage :=
  match projectBlobKeys pid st with
  | [] => st
  | blobKeys => Store.remove blobKeys st
  end.

(** [deleteProject(projectId)] *)
Definition deleteProject (pid : string) (st : Storage) : Storage :=
  removeFromRecentProjects pid
    (deleteProjectBlobs pid (Store.remove ["project_" +:+ pid] st)).

(** The entries [getAllProjects] keeps before sorting: keys that start with
    [project_] whose value is a project with a truthy [id]. *)
Definition storedProjects (st : Storage) : list Project :=
  omap (λ e : string * Value,
          if Js.startsWith "project_" e.1 then
            match e.2 with
            | VProject p => if decide (projectId p = "") then None else Some p
            | _ => None
            end
          else None) st.

(** [getAllProjects({sortBy: 'updatedAt', sortOrder: 'asc'})], with the
    default [limit] of 50. *)
Definition getAllProjects_asc (st : Storage) : list Project :=
  Js.slice0 50 (Js.sortBy (λ p, Js.orZero (updatedAt p)) (storedProjects st)).

(** [(now - (project.updatedAt || project.createdAt)) > this.maxProjectAge] *)
Definition isOld (now : Z) (p : Project) : bool :=
  match match updatedAt p with
        | Some 0 | None => createdAt p
        | Some u => Some u
        end with
  | Some t => bool_decide (now - t > maxProjectAge)
  | None => false
  end.

(** The list [projectsToDelete] of [cleanupOldProjects]. *)
Definition projectsToDelete (now : Z) (st : Storage) : list Project :=
  let projects := getAllProjects_asc st in
  filter (λ p, isOld now p = true) projects ++ Js.sliceFrom maxProjects projects.

(** [cleanupOldProjects()] *)
Definition cleanupOldProjects (now : Z) (st : Storage) : Storage :=
  foldl (λ acc p, deleteProject (projectId p) acc) st (projectsToDelete now st).

(** [saveProject(projectData)]: the storage afterwards and the [projectId]
    of the result, or the thrown message. *)
Definition saveProject (p : Project) (nowSaved nowCleanup : Z) (st : Storage)
    : Storage * (string + string) :=
  if decide (projectId p = "") then (st, inl "Invalid project data")
  else
    let st1 := Store.set ("project_" +:+ projectId p)
                 (VProject (setSavedAt nowSaved p)) st in
    let st2 := updateRecentProjects p st1 in
    (cleanupOldProjects nowCleanup st2, inr (projectId p)).

(** [loadProject(projectId)] *)
Definition loadProject (pid : string) (now : Z) (st : Storage)
    : Storage * (string + Project) :=
  match Store.get ("project_" +:+ pid) st with
  | Some (VProject project) =>
      let project' := setLastAccessed now project in
      (Store.set ("project_" +:+ pid) (VProject project') st, inr project')
  | _ => (st, inl "Project not found")
  end.

(** [getProjectBlobs(projectId)]: the entries of the [blobs] object, each
    blob id with its record. *)
Definition getProjectBlobs (pid : string) (st : Storage)
    : list (string * BlobRecord) :=
  omap (λ e : string * Value,
          if Js.startsWith "blob_" e.1 && Js.includes pid e.1 then
            match e.2 with
            | VBlob b => Some (Js.replace "blob_" "" e.1, b)
            | _ => None
            end
          else None) st.

(** The parsed argument of [importProject]: [project] and [blobs || {}]. *)
Record ImportData := {
  importedProject : option Project;
  importedBlobs : list (string * BlobRecord) }.

Definition setImportedAt (now : Z) (p : Project) : Project :=
  {| projectId := projectId p; name := name p; createdAt := createdAt p;
     updatedAt := updatedAt p; duration := duration p; settings := settings p;
     timeline := timeline p; export := export p; thumbnail := thumbnail p;
     savedAt := savedAt p; lastAccessed := lastAccessed p;
     importedAt := Some now |}.

(** The loop [for (const [blobId, blobData] of Object.entries(blobs))] of
    [importProject]. *)
Definition importBlobs (blobs : list (string * BlobRecord)) (st : Storage)
    : Storage :=
  foldl (λ acc e, Store.set ("blob_" +:+ e.1) (VBlob e.2) acc) st blobs.

(** [importProject(importData, {overwriteExisting})] on an already parsed
    [importData]. [nowLoad] is read by the [loadProject] of the existence
    check, [nowImported] for [importedAt]. *)
Definition importProject (data : ImportData) (overwriteExisting : bool)
    (nowLoad nowImported nowSaved nowCleanup : Z) (st : Storage)
    : Storage * (string + Project) :=
  match importedProject data with
  | None => (st, inl "Invalid project import data")
  | Some project =>
      if decide (projectId project = "") then
        (st, inl "Invalid project import data")
      else
        let '(st1, refusal) :=
          if overwriteExisting then (st, None)
          else
            match loadProject (projectId project) nowLoad st with
            | (st', inr _) =>
                (st', Some "Project already exists. Use overwriteExisting option to replace.")
            | (st', inl e) =>
                if Js.includes "Project not found" e then (st', None)
                else (st', Some e)
            end in
        match refusal with
        | Some e => (st1, inl e)
        | None =>
            let st2 := importBlobs (importedBlobs data) st1 in
            let project' := setImportedAt nowImported project in
            match saveProject project' nowSaved nowCleanup st2 with
            | (st3, inl e) => (st3, inl e)
            | (st3, inr _) => (st3, inr project')
            end
        end
  end.

End ProjectManager.

(** ** src/background/storage-manager.js *)

Module StorageManager.
Import Data.

(** [this.defaultSettings.maxStorageUsage], a percentage *)
Definition maxStorageUsage : Z := 80.

Definition thirtyDays : Z := 30 * 24 * 60 * 60 * 1000.

(** [getProjectIdsFromData(allData)] *)
Definition getProjectIdsFromData (allData : Storage) : list string :=
  omap (λ e : string * Value,
          if Js.startsWith "project_" e.1 then
            match e.2 with
            | VProject p => if decide (projectId p = "") then None else Some (projectId p)
            | _ => None
            end
          else None) allData.

(** [tempKeys] of [cleanupStorage] *)
Definition tempKeys (allData : Storage) : list string :=
  filter (λ k, Js.startsWith "temp_" k || Js.startsWith "cache_" k)
    (Store.keys allData).

(** [blobKeys] of [cleanupStorage] *)
Definition blobKeys (allData : Storage) : list string :=
  filter (λ k, Is_true (Js.startsWith "blob_" k)) (Store.keys allData).

(** [isReferenced] for one blob key *)
Definition isReferenced (projectIds : list string) (blobKey : string) : bool :=
  let blobId := Js.replace "blob_" "" blobKey in
  existsb (λ projectId, Js.includes projectId blobId) projectIds.

(** [blobData.createdAt && (Date.now() - blobData.createdAt) > thirty days] *)
Definition isOldBlob (now : Z) (v : option Value) : bool :=
  match v with
  | Some (VBlob b) =>
      match recCreatedAt b with
      | Some 0 | None => false
      | Some t => bool_decide (now - t > thirtyDays)
      end
  | _ => false
  end.

(** The classification loop over [blobKeys]: the lists [orphanedBlobs] and
    [oldBlobs] it builds. [nowAt i] is the clock reading taken at the [i]-th
    blob key. *)
Fixpoint classify (allData : Storage) (projectIds : list string)
    (nowAt : nat → Z) (i : nat) (ks : list string) : list string * list string :=
  match ks with
  | [] => ([], [])
  | blobKey :: rest =>
      let '(orphanedBlobs, oldBlobs) :=
        classify allData projectIds nowAt (S i) rest in
      if negb (isReferenced projectIds blobKey) then
        (blobKey :: orphanedBlobs, oldBlobs)
      else if isOldBlob (nowAt i) (Store.get blobKey allData) then
        (orphanedBlobs, blobKey :: oldBlobs)
      else (orphanedBlobs, oldBlobs)
  end.

Definition orphanedBlobs (nowAt : nat → Z) (allData : Storage) : list string :=
  (classify allData (getProjectIdsFromData allData) nowAt 0 (blobKeys allData)).1.

Definition oldBlobs (nowAt : nat → Z) (allData : Storage) : list string :=
  (classify allData (getProjectIdsFromData allData) nowAt 0 (blobKeys allData)).2.

(** [oldBlobs.slice(0, Math.ceil(oldBlobs.length / 2))], taken when the usage
    read after the orphans are gone is still above the threshold. [usage] is
    the [percentage] of [getStorageUsage()], [None] when that returns [null]. *)
Definition blobsToRemove (usageAfterOrphans : option Z) (old : list string)
    : list string :=
  match usageAfterOrphans with
  | Some percentage =>
      if decide (percentage > maxStorageUsage)
      then Js.slice0 (Nat.div2 (S (length old))) old
      else []
  | None => []
  end.

(** [updateCleanupStats(itemsFreed)] *)
Definition updateCleanupStats (itemsFreed : Z) (now : Z) (st : Storage) : Storage :=
  let currentStats :=
    match Store.get "cleanup_stats" st with
    | Some (VCleanupStats c) => c
    | _ => {| totalCleanups := 0; totalItemsFreed := 0; lastCleanup := None |}
    end in
  Store.set "cleanup_stats"
    (VCleanupStats
       {| totalCleanups := totalCleanups currentStats + 1;
          totalItemsFreed := totalItemsFreed currentStats + itemsFreed;
          lastCleanup := Some now |}) st.

(** The keys one run of [cleanupStorage] removes, in the order of removal. *)
Definition removedKeys (nowAt : nat → Z) (usageAfterOrphans : option Z)
    (allData : Storage) : list string :=
  tempKeys allData ++ orphanedBlobs nowAt allData
  ++ blobsToRemove usageAfterOrphans (oldBlobs nowAt allData).

(** [cleanupStorage()] *)
Definition cleanupStorage (nowAt : nat → Z) (usageAfterOrphans : option Z)
    (nowStats : Z) (st : Storage) : Storage :=
  let allData := st in
  let st1 := Store.remove (tempKeys allData) st in
  let st2 := Store.remove (orphanedBlobs nowAt allData) st1 in
  let toRemove := blobsToRemove usageAfterOrphans (oldBlobs nowAt allData) in
  let st3 := Store.remove toRemove st2 in
  let freedSpace :=
    Z.of_nat (length (tempKeys allData) + length (orphanedBlobs nowAt allData)
              + length toRemove) in
  updateCleanupStats freedSpace nowStats st3.

(** [performMaintenance()]. [usage] is the first reading of
    [getStorageUsage()]. *)
Definition performMaintenance (usage : option Z) (nowAt : nat → Z)
    (usageAfterOrphans : option Z) (nowStats nowMaintenance : Z)
    (st : Storage) : Storage :=
  let st1 :=
    match usage with
    | Some percentage =>
        if decide (percentage > maxStorageUsage)
        then cleanupStorage nowAt usageAfterOrphans nowStats st
        else st
    | None => st
    end in
  Store.set "lastMaintenance" (VNumber nowMaintenance) st1.

(** [clearTemporaryData()] *)
Definition clearTemporaryData (st : Storage) : Storage :=
  match filter (λ k, Is_true (Js.startsWith "temp_" k)) (Store.keys st) with
  | [] => st
  | tempKeys => Store.remove tempKeys st
  end.

(** [setData(data)]: [chrome.storage.local.set] of an object with several
    keys, taken in the object's key order. *)
Definition setData (data : Storage) (st : Storage) : Storage :=
  foldl (λ acc e, Store.set e.1 e.2 acc) st data.

(** [importAllData(importData, {overwrite, skipBlobs})] on an already parsed
    [importData]; [data] is [parsedData.data], [None] when it is missing. *)
Definition importAllData (data : option Storage) (overwrite skipBlobs : bool)
    (st : Storage) : Storage * (string + ()) :=
  match data with
  | None => (st, inl "Invalid backup data format")
  | Some dataToImport =>
      if negb overwrite then
        (* Object.assign(existingData, dataToImport); setData(existingData) *)
        (setData (setData dataToImport st) st, inr ())
      else if skipBlobs then
        let existingBlobs :=
          filter (λ e : string * Value, Is_true (Js.startsWith "blob_" e.1)) st in
        (* clearAllData(); setData({...dataToImport, ...existingBlobs}) *)
        (setData (setData existingBlobs (setData dataToImport [])) [], inr ())
      else
        (setData dataToImport [], inr ())
  end.

End StorageManager.

(** ** src/background/service-worker.js (the modular worker) *)

Module ServiceWorker.
Import Data.

(** [stopRecording(data)]: stop the session, then auto-save the project. *)
Definition stopRecording (sessionId : string) (nowEnd : Z)
    (response : option RecordingManager.Reply) (localeNow : string)
    (nowUpdated : Z) (blobNow : nat → Z) (nowSaved nowCleanup : Z)
    (w : RecordingManager.Manager * Storage)
    : (RecordingManager.Manager * Storage)
      * (string + RecordingManager.StopResult) :=
  match RecordingManager.stopRecording sessionId nowEnd response localeNow
          nowUpdated blobNow w with
  | (w', inl e) => (w', inl e)
  | ((m', st'), inr result) =>
      match ProjectManager.saveProject (RecordingManager.projectData result)
              nowSaved nowCleanup st' with
      | (st'', inl e) => ((m', st''), inl e)
      | (st'', inr _) => ((m', st''), inr result)
      end
  end.

End ServiceWorker.

(** ** Notions used to state the properties *)

Module Props.
Import Data.

(** The cursor events a manager holds for a session id. *)
Definition recorded (m : RecordingManager.Manager) (sid : string)
    : list CursorEvent :=
  match RecordingManager.activeSessions m !! sid with
  | Some s => RecordingManager.cursorEvents s
  | None => []
  end.

(** What the pause arithmetic of a session rests on: its start time, state,
    last pause time and accumulated pause duration. *)
Definition phase (m : RecordingManager.Manager) (sid : string)
    : option (Z * RecordingManager.SessionState * option Z * option Z) :=
  (λ s, (RecordingManager.startTime s, RecordingManager.state s,
         RecordingManager.pauseTime s, RecordingManager.totalPauseDuration s))
  <$> RecordingManager.activeSessions m !! sid.

(** One CURSOR_EVENT message reaching [addCursorEvent], with the two clock
    readings taken while it is handled. *)
Record Arrival := {
  arrivalData : EventData;
  arrivalTimestamp : Z;
  arrivalRelative : Z }.

(** The cursor event [addCursorEvent] builds for an arrival, for a session
    started at [start] whose accumulated pause duration reads [total]. *)
Definition stamped (start : Z) (total : option Z) (a : Arrival) : CursorEvent :=
  {| eventData := arrivalData a;
     timestamp := arrivalTimestamp a - start;
     relativeTime := arrivalRelative a - start - Js.orZero total |}.

(** The manager after a run of CURSOR_EVENT messages, in arrival order. *)
Definition deliver (arrivals : list Arrival) (m : RecordingManager.Manager)
    : RecordingManager.Manager :=
  foldl (λ acc a,
           (RecordingManager.addCursorEvent (arrivalData a)
              (arrivalTimestamp a) (arrivalRelative a) acc).1) m arrivals.

(** The segment list the specification asks of a sealed timeline: the chunks
    sorted by [sequenceIndex], then described in that order. *)
Definition videoSegments_bySequenceIndex (sid : string) (blobs : list Blob)
    : list VideoSegment :=
  imap (RecordingManager.mkSegment sid)
    (Js.sortBy (λ b, Z.of_nat (sequenceIndex b)) blobs).

(** The chunk a RECORD_CHUNK message contributes, if any. *)
Definition accepted (d : CursorFlowRecorder.ChunkMessage)
    : option CursorFlowRecorder.RecordedChunk :=
  match d with
  | CursorFlowRecorder.DataBlob b => Some (CursorFlowRecorder.BlobChunk b)
  | CursorFlowRecorder.DataBuffer b => Some (CursorFlowRecorder.BufferChunk b)
  | CursorFlowRecorder.DataMissing => None
  end.

(** The recorder after a run of RECORD_CHUNK messages, in arrival order. *)
Definition receive (arrivals : list CursorFlowRecorder.ChunkMessage)
    (r : CursorFlowRecorder.Recorder) : CursorFlowRecorder.Recorder :=
  foldl (λ acc d, CursorFlowRecorder.recordChunk d acc) r arrivals.

(** [result.recordings_list || []] *)
Definition recordingsList (st : Storage) : list RecordingSummary :=
  match Store.get "recordings_list" st with
  | Some (VRecordingsList l) => l
  | _ => []
  end.

(** The entry [saveToStorage] puts in front. *)
Definition recordingSummary (r : Recording) : RecordingSummary :=
  {| rsId := recordingId r; rsTimestamp := recTimestamp r;
     rsDuration := recDuration r; rsSize := size r;
     rsSettings := recSettings r |}.

(** The tracker after a run of mouse moves; each move comes with the clock
    reading of the throttle check and the one of the send. *)
Definition moves (readings : list (Z * Z)) (t : CursorTracker.Tracker)
    : CursorTracker.Tracker :=
  foldl (λ acc r, CursorTracker.handleMouseMove "" r.1 r.2 acc) t readings.

(** [stats.cleanup_stats || {totalCleanups: 0, totalItemsFreed: 0, ...}] *)
Definition cleanupStats (st : Storage) : CleanupStats :=
  match Store.get "cleanup_stats" st with
  | Some (VCleanupStats c) => c
  | _ => {| totalCleanups := 0; totalItemsFreed := 0; lastCleanup := None |}
  end.

(** The blob ids a stored value refers to. *)
Definition referencedBlobs (v : Value) : list string :=
  match v with
  | VProject p => blobId <$> videoSegments (timeline p)
  | _ => []
  end.

(** No stored project refers to a blob record that is not in storage. *)
Definition referentialIntegrity (st : Storage) : bool :=
  forallb (λ e : string * Value,
             forallb (λ b, bool_decide (is_Some (Store.get ("blob_" +:+ b) st)))
               (referencedBlobs e.2)) st.

End Props.

(** ** A worked recording

    One session on tab 7, started at clock reading 0; three chunks captured
    in the order 0, 1, 2 and handed over in the order 1, 0, 2; a pause at 5000
    and a resume at 7000; a click at 9000; stop at 10000. *)

Module Scenario.
Import Data.

Definition options : RecordingManager.Options :=
  {| RecordingManager.optTabId := 7;
     RecordingManager.optStreamId := "stream";
     RecordingManager.optQuality := None;
     RecordingManager.optFps := None;
     RecordingManager.optAutoZoom := None;
     RecordingManager.optZoomLevel := None;
     RecordingManager.optZoomDuration := None;
     RecordingManager.optSettings :=
       {| RecordingManager.setQuality := None;
          RecordingManager.setFps := None;
          RecordingManager.setAutoZoom := None;
          RecordingManager.setZoomLevel := None;
          RecordingManager.setZoomDuration := None |} |}.

Definition ack : RecordingManager.InitOutcome :=
  RecordingManager.InitReply
    (Some {| RecordingManager.success := true;
             RecordingManager.replyError := None;
             RecordingManager.replyBlobs := None |}).

Definition sid : string := "session_1_0".

(** The manager once the session is recording. *)
Definition started : RecordingManager.Manager :=
  (RecordingManager.startRecording options 0 0 ack
     RecordingManager.constructor).1.

(** The session object at that point. *)
Definition session0 : RecordingManager.Session :=
  {| RecordingManager.id := sid;
     RecordingManager.tabId := 7;
     RecordingManager.streamId := "stream";
     RecordingManager.startTime := 0;
     RecordingManager.state := RecordingManager.recording;
     RecordingManager.cursorEvents := [];
     RecordingManager.videoBlobs := [];
     RecordingManager.sessionSettings := RecordingManager.mkSettings options;
     RecordingManager.endTime := None;
     RecordingManager.pauseTime := None;
     RecordingManager.totalPauseDuration := None |}.

Definition click (at_ : Z) : EventData :=
  {| sessionId := sid; eventType := "mousedown"; rawTimestamp := at_;
     payload := "" |}.

Definition chunk (k : nat) : Blob :=
  {| sequenceIndex := k; blobSize := 10 + Z.of_nat k;
     blobType := "video/webm"; blobData := "chunk" +:+ Js.num (Z.of_nat k) |}.

(** The chunks in the order they were handed over. *)
Definition arrived : list Blob := [chunk 1; chunk 0; chunk 2].

Definition resumed : RecordingManager.Manager :=
  (RecordingManager.resumeRecording sid 7000
     (RecordingManager.pauseRecording sid 5000 started).1).1.

Definition clicked : RecordingManager.Manager :=
  (RecordingManager.addCursorEvent (click 9000) 9000 9000 resumed).1.

(** The session object just before the stop. *)
Definition sessionAtStop : RecordingManager.Session :=
  Eval vm_compute in
    default session0 (RecordingManager.activeSessions clicked !! sid).

Definition stopReply (blobs : list Blob) : option RecordingManager.Reply :=
  Some {| RecordingManager.success := true;
          RecordingManager.replyError := None;
          RecordingManager.replyBlobs := Some blobs |}.

(** The outcome of [stopRecording] at 10000. *)
Definition stopped :=
  RecordingManager.stopRecording sid 10000 (stopReply arrived) "1/1/1970"
    10001 (λ _, 10002) (clicked, []).

(** The modular worker's stop: the session is stopped and the project
    auto-saved. *)
Definition saved :=
  ServiceWorker.stopRecording sid 10000 (stopReply arrived) "1/1/1970" 10001
    (λ _, 10002) 10003 10004 (clicked, []).

(** The storage after that save: three blob records, the project and the
    recent-projects list. *)
Definition persisted : Storage := Eval vm_compute in saved.1.2.

(** The project record as stored. *)
Definition project : Project :=
  Eval vm_compute in
    match Store.get "project_project_session_1_0" persisted with
    | Some (VProject p) => p
    | _ => (RecordingManager.generateProjectData session0 "" 0 (λ _, 0) []).2
    end.

(** A project brought in by [importProject], with two blob records named
    after its id and created at clock reading 1. *)
Definition imported : Project :=
  {| projectId := "p1"; name := "Imported"; createdAt := Some 1;
     updatedAt := Some 1; duration := Some 2000;
     settings := RecordingManager.mkSettings options;
     timeline :=
       {| tlDuration := Some 2000; tlCursorEvents := [];
          videoSegments :=
            [RecordingManager.mkSegment "p1" 0 (chunk 0);
             RecordingManager.mkSegment "p1" 1 (chunk 1)] |};
     export := {| formats := ["mp4"; "webm"]; exportQuality := "high";
                  resolution := "1920x1080" |};
     thumbnail := None; savedAt := Some 1; lastAccessed := None;
     importedAt := Some 1 |}.

Definition importedStorage : Storage :=
  [("blob_p1_0",
    VBlob {| recData := "chunk0"; recType := "video/webm"; recSize := 10;
             recCreatedAt := Some 1 |});
   ("blob_p1_1",
    VBlob {| recData := "chunk1"; recType := "video/webm"; recSize := 11;
             recCreatedAt := Some 1 |});
   ("project_p1", VProject imported)].

(** A clock reading more than thirty days after reading 1. *)
Definition muchLater : Z := StorageManager.thirtyDays + 2.

(** The stand-alone recorder: the popup's settings, and the recorder once a
    start at clock reading 0 has gone through. *)
Definition capture : CaptureSettings :=
  {| capQuality := "1080p"; capWidth := 1920; capHeight := 1080;
     capFps := 30; capAutoZoom := true; capTimestamp := 0 |}.

Definition recorderStarted : CursorFlowRecorder.Recorder :=
  (CursorFlowRecorder.startRecording capture 0 0
     (CursorFlowRecorder.Tabs (Some 7))
     (CursorFlowRecorder.CaptureStream "stream")
     CursorFlowRecorder.Injected CursorFlowRecorder.constructor).1.

Definition recorderSession : CursorFlowRecorder.CurrentSession :=
  {| CursorFlowRecorder.id := "recording_0";
     CursorFlowRecorder.startTime := 0;
     CursorFlowRecorder.sessionSettings := capture |}.

End Scenario.

(** * Facts about the storage primitives *)

Module StoreFacts.

Lemma get_set_eq {V} k (v : V) s : Store.get k (Store.set k v s) = Some v.
Proof.
  induction s as [|[k' v'] s IH]; cbn [Store.set Store.get].
  - by rewrite decide_True.
  - destruct (decide (k' = k)) as [->|Hne]; cbn [Store.get].
    + by rewrite decide_True.
    + by rewrite decide_False.
Qed.

Lemma get_set_ne {V} k k' (v : V) s :
  k ≠ k' → Store.get k' (Store.set k v s) = Store.get k' s.
Proof.
  intros Hne. induction s as [|[k0 v0] s IH]; cbn [Store.set Store.get].
  - by rewrite decide_False.
  - destruct (decide (k0 = k)) as [->|Hk0]; cbn [Store.get].
    + by rewrite !decide_False.
    + destruct (decide (k0 = k')); [done | apply IH].
Qed.

Lemma get_None_keys {V} k (s : list (string * V)) :
  Store.get k s = None ↔ k ∉ Store.keys s.
Proof.
  unfold Store.keys. induction s as [|[k0 v0] s IH]; cbn [Store.get].
  - split; [intros _; apply not_elem_of_nil | done].
  - rewrite fmap_cons, not_elem_of_cons. cbn [fst].
    destruct (decide (k0 = k)) as [->|Hk0].
    + split; [done | by intros [? _]].
    + rewrite IH. split; [by split | by intros [_ ?]].
Qed.

Lemma keys_remove {V} ks (s : list (string * V)) :
  Store.keys (Store.remove ks s) = filter (λ k, k ∉ ks) (Store.keys s).
Proof.
  unfold Store.keys, Store.remove. induction s as [|[k0 v0] s IH]; [done|].
  rewrite fmap_cons, !filter_cons. cbn [fst].
  destruct (decide (k0 ∉ ks)); [rewrite fmap_cons; cbn [fst]|]; by rewrite IH.
Qed.

Lemma keys_set {V} k (v : V) s :
  Store.keys (Store.set k v s) ⊆ k :: Store.keys s.
Proof.
  unfold Store.keys. induction s as [|[k0 v0] s IH]; cbn [Store.set].
  - done.
  - destruct (decide (k0 = k)) as [->|Hk0]; rewrite !fmap_cons; cbn [fst].
    + intros x Hx. by apply elem_of_cons; right.
    + intros x [->|Hx]%elem_of_cons.
      * apply elem_of_cons; right. by apply elem_of_cons; left.
      * apply IH in Hx. apply elem_of_cons in Hx as [->|Hx];
          [by apply elem_of_cons; left|].
        apply elem_of_cons; right. by apply elem_of_cons; right.
Qed.

Lemma get_remove_in {V} k ks (s : list (string * V)) :
  k ∈ ks → Store.get k (Store.remove ks s) = None.
Proof.
  intros Hin. apply get_None_keys. rewrite keys_remove.
  intros [? _]%list_elem_of_filter. done.
Qed.

Lemma get_remove_notin {V} k ks (s : list (string * V)) :
  k ∉ ks → Store.get k (Store.remove ks s) = Store.get k s.
Proof.
  intros Hin. induction s as [|[k0 v0] s IH]; [done|].
  unfold Store.remove in *. rewrite filter_cons. cbn [fst Store.get].
  destruct (decide (k0 ∉ ks)) as [Hk0|Hk0]; cbn [Store.get].
  - by rewrite IH.
  - destruct (decide (k0 = k)) as [->|?]; [|done].
    destruct Hk0. done.
Qed.

Lemma remove_nil {V} (s : list (string * V)) : Store.remove [] s = s.
Proof.
  induction s as [|[k0 v0] s IH]; [done|].
  unfold Store.remove in *. rewrite filter_cons. cbn [fst].
  destruct (decide (k0 ∉ [])) as [?|Hk0]; [by rewrite IH|].
  destruct Hk0. apply not_elem_of_nil.
Qed.

End StoreFacts.

(** * The recording manager: pause-aware relative time *)

Module SessionFacts.
Import Data RecordingManager Props.

Lemma addCursorEvent_found m data t1 t2 session :
  activeSessions m !! sessionId data = Some session →
  addCursorEvent data t1 t2 m =
    (withSessions
       (insert (sessionId data)
          (pushCursorEvent
             {| eventData := data;
                timestamp := t1 - startTime session;
                relativeTime :=
                  t2 - startTime session
                  - Js.orZero (totalPauseDuration session) |} session)) m,
     Added).
Proof. intros H. unfold addCursorEvent. by rewrite H. Qed.

Lemma addCursorEvent_phase m data t1 t2 sid :
  phase (addCursorEvent data t1 t2 m).1 sid = phase m sid.
Proof.
  unfold addCursorEvent, phase.
  destruct (activeSessions m !! sessionId data) as [session|] eqn:Hs; [|done].
  cbn [fst withSessions activeSessions].
  destruct (decide (sessionId data = sid)) as [<-|Hne].
  - by rewrite lookup_insert_eq, Hs.
  - by rewrite lookup_insert_ne.
Qed.

Lemma deliver_phase arrivals m sid : phase (deliver arrivals m) sid = phase m sid.
Proof.
  revert m. induction arrivals as [|a arrivals IH]; intros m; [done|].
  unfold deliver in *. cbn [foldl]. rewrite IH. apply addCursorEvent_phase.
Qed.

Lemma phase_Some m sid st0 state0 pt tot :
  phase m sid = Some (st0, state0, pt, tot) →
  ∃ s, activeSessions m !! sid = Some s ∧ startTime s = st0 ∧
       state s = state0 ∧ pauseTime s = pt ∧ totalPauseDuration s = tot.
Proof.
  unfold phase. destruct (activeSessions m !! sid) as [s|]; [|done].
  intros [= <- <- <- <-]. by exists s.
Qed.

Lemma pauseRecording_phase m sid now st0 pt tot :
  phase m sid = Some (st0, recording, pt, tot) →
  phase (pauseRecording sid now m).1 sid = Some (st0, paused, Some now, tot).
Proof.
  intros (s & Hs & <- & Hstate & <- & <-)%phase_Some.
  unfold pauseRecording, phase. rewrite Hs, decide_True by done.
  cbn [fst send withSessions activeSessions]. by rewrite lookup_insert_eq.
Qed.

Lemma resumeRecording_phase m sid now st0 p tot :
  phase m sid = Some (st0, paused, Some p, tot) →
  phase (resumeRecording sid now m).1 sid =
    Some (st0, recording, Some p, Some (Js.orZero tot + (now - p))).
Proof.
  intros (s & Hs & <- & Hstate & Hp & <-)%phase_Some.
  unfold resumeRecording, phase. rewrite Hs, decide_True by done.
  cbn [fst send withSessions activeSessions]. rewrite lookup_insert_eq.
  cbn. by rewrite Hp.
Qed.

Lemma addCursorEvent_relativeTime m data t1 t2 st0 state0 pt tot :
  phase m (sessionId data) = Some (st0, state0, pt, tot) →
  ∃ e, (addCursorEvent data t1 t2 m).2 = Added ∧
       recorded (addCursorEvent data t1 t2 m).1 (sessionId data)
         = recorded m (sessionId data) ++ [e] ∧
       eventData e = data ∧
       relativeTime e = t2 - st0 - Js.orZero tot.
Proof.
  intros (s & Hs & <- & _ & _ & <-)%phase_Some.
  rewrite (addCursorEvent_found _ _ _ _ _ Hs). eexists. split; [done|].
  unfold recorded. cbn [fst withSessions activeSessions].
  rewrite lookup_insert_eq, Hs. cbn. done.
Qed.

(** C1. Every cursor event that reaches [addCursorEvent] while its session is
    in the registry is recorded with
    [relativeTime = (clock reading - startTime) - totalPauseDuration], the
    accumulated pause duration being read at that moment. In particular, for a
    session that has not been paused before, is paused at [tp] and resumed at
    [tr], every event that arrives afterwards (whatever arrived in between)
    gets [relativeTime = clock reading - startTime - (tr - tp)]. *)
Theorem relativeTime_subtracts_pause_at_arrival :
  (∀ m data t1 t2 session,
     activeSessions m !! sessionId data = Some session →
     ∃ e, (addCursorEvent data t1 t2 m).2 = Added ∧
          recorded (addCursorEvent data t1 t2 m).1 (sessionId data)
            = cursorEvents session ++ [e] ∧
          relativeTime e =
            (t2 - startTime session) - Js.orZero (totalPauseDuration session))
  ∧
  (∀ m session tp tr during after data t1 t2,
     activeSessions m !! sessionId data = Some session →
     state session = recording →
     totalPauseDuration session = None →
     let m1 := deliver during (pauseRecording (sessionId data) tp m).1 in
     let m2 := deliver after (resumeRecording (sessionId data) tr m1).1 in
     ∃ e, (addCursorEvent data t1 t2 m2).2 = Added ∧
          last (recorded (addCursorEvent data t1 t2 m2).1 (sessionId data))
            = Some e ∧
          relativeTime e = t2 - startTime session - (tr - tp)).
Proof.
  split.
  - intros m data t1 t2 session Hs.
    destruct (addCursorEvent_relativeTime m data t1 t2 (startTime session)
                (state session) (pauseTime session)
                (totalPauseDuration session)) as (e & He1 & He2 & _ & He3).
    { unfold phase. by rewrite Hs. }
    exists e. split; [done|]. split; [|done].
    rewrite He2. unfold recorded. by rewrite Hs.
  - intros m session tp tr during after data t1 t2 Hs Hstate Htot m1 m2.
    assert (phase m (sessionId data)
            = Some (startTime session, recording, pauseTime session, None)) as H0.
    { unfold phase. rewrite Hs. cbn. by rewrite Hstate, Htot. }
    apply (pauseRecording_phase _ _ tp) in H0.
    rewrite <- (deliver_phase during) in H0. fold m1 in H0.
    apply (resumeRecording_phase _ _ tr) in H0.
    rewrite <- (deliver_phase after) in H0. fold m2 in H0.
    destruct (addCursorEvent_relativeTime m2 data t1 t2 _ _ _ _ H0)
      as (e & He1 & He2 & _ & He3).
    exists e. split; [done|]. split.
    + rewrite He2. apply last_snoc.
    + rewrite He3. cbn. lia.
Qed.

Lemma relativeTime_witness :
  activeSessions Scenario.started !! sessionId (Scenario.click 9000)
    = Some Scenario.session0
  ∧ ∃ e, (addCursorEvent (Scenario.click 9000) 9000 9000 Scenario.resumed).2
           = Added
         ∧ last (recorded Scenario.clicked Scenario.sid) = Some e
         ∧ relativeTime e = 9000 - 0 - (7000 - 5000).
Proof.
  split; [vm_compute; reflexivity|].
  apply (proj2 relativeTime_subtracts_pause_at_arrival Scenario.started
           Scenario.session0 5000 7000 [] [] (Scenario.click 9000) 9000 9000);
    vm_compute; reflexivity.
Defined.

(** C4. [pauseRecording] goes through exactly when the session is in the
    registry in state [recording], and [resumeRecording] exactly when it is
    there in state [paused]. In every other case the call throws its
    invalid-state error and the manager (every session, every field) is what
    it was. *)
Theorem pause_resume_only_from_their_state :
  ∀ m sid now,
    (∀ session,
       activeSessions m !! sid = Some session → state session = recording →
       pauseRecording sid now m =
         (send (tabId session) PAUSE_RECORDING sid
            (withSessions (insert sid (setPaused now session)) m),
          inr {| transitionSuccess := true; newState := paused |}))
    ∧ (state <$> activeSessions m !! sid ≠ Some recording →
       pauseRecording sid now m = (m, inl "Invalid session state for pause"))
    ∧ (∀ session,
         activeSessions m !! sid = Some session → state session = paused →
         resumeRecording sid now m =
           (send (tabId session) RESUME_RECORDING sid
              (withSessions (insert sid (setResumed now session)) m),
            inr {| transitionSuccess := true; newState := recording |}))
    ∧ (state <$> activeSessions m !! sid ≠ Some paused →
       resumeRecording sid now m = (m, inl "Invalid session state for resume")).
Proof.
  intros m sid now. unfold pauseRecording, resumeRecording.
  repeat split.
  - intros session -> Hstate. by rewrite decide_True.
  - destruct (activeSessions m !! sid) as [session|]; [|done].
    cbn. intros Hne. rewrite decide_False; [done | congruence].
  - intros session -> Hstate. by rewrite decide_True.
  - destruct (activeSessions m !! sid) as [session|]; [|done].
    cbn. intros Hne. rewrite decide_False; [done | congruence].
Qed.

Lemma pause_resume_witness :
  state <$> activeSessions Scenario.started !! Scenario.sid ≠ Some paused
  ∧ resumeRecording Scenario.sid 5000 Scenario.started
    = (Scenario.started, inl "Invalid session state for resume").
Proof.
  assert (state <$> activeSessions Scenario.started !! Scenario.sid
          ≠ Some paused) as H by (vm_compute; discriminate).
  split; [exact H|].
  exact (proj2 (proj2 (proj2
           (pause_resume_only_from_their_state Scenario.started Scenario.sid
              5000))) H).
Defined.

Lemma stopRecording_found m st sid session nowEnd response blobs localeNow
    nowUpdated blobNow :
  activeSessions m !! sid = Some session →
  stopMediaRecorder response = inr blobs →
  let stopping_ := setVideoBlobs blobs (setStopping nowEnd session) in
  stopRecording sid nowEnd response localeNow nowUpdated blobNow (m, st) =
    ((withSessions (delete sid)
        (send (tabId session) STOP_CURSOR_TRACKING (id session)
           (send (tabId session) STOP_MEDIA_RECORDER (id session)
              (withSessions (insert sid (setStopping nowEnd session)) m))),
      (generateProjectData stopping_ localeNow nowUpdated blobNow st).1),
     inr {| stopSuccess := true; stopSessionId := sid;
            stopDuration := span stopping_;
            projectData :=
              (generateProjectData stopping_ localeNow nowUpdated blobNow st).2 |}).
Proof.
  intros Hs Hr. cbn zeta. unfold stopRecording. rewrite Hs, Hr. reflexivity.
Qed.

(** C2 as the specification words it: the sealed duration is the span from
    start to end minus the accumulated pause duration. The worked recording
    (start 0, pause 5000 to 7000, stop 10000) is sealed with duration 10000,
    not 8000. *)
Lemma sealed_duration_keeps_paused_time :
  ∃ session result,
    activeSessions Scenario.clicked !! Scenario.sid = Some session
    ∧ Js.orZero (totalPauseDuration session) = 2000
    ∧ Scenario.stopped.2 = inr result
    ∧ tlDuration (timeline (projectData result)) = Some 10000
    ∧ tlDuration (timeline (projectData result))
      ≠ Some (10000 - startTime session
              - Js.orZero (totalPauseDuration session)).
Proof.
  eexists _, _. split; [vm_compute; reflexivity|].
  split; [reflexivity|]. split; [vm_compute; reflexivity|].
  split; [reflexivity|]. cbn. discriminate.
Qed.

(** C2, amended. When [stopRecording] finds the session and the content
    script hands the blobs over, the sealed timeline's duration, the
    project's and the one in the result are all the clock reading at stop
    minus [startTime]; time spent paused is not taken off. *)
Theorem sealed_duration_is_wall_clock_span :
  ∀ m st sid session nowEnd response blobs localeNow nowUpdated blobNow,
    activeSessions m !! sid = Some session →
    stopMediaRecorder response = inr blobs →
    ∃ result,
      (stopRecording sid nowEnd response localeNow nowUpdated blobNow (m, st)).2
        = inr result
      ∧ tlDuration (timeline (projectData result))
        = Some (nowEnd - startTime session)
      ∧ duration (projectData result) = Some (nowEnd - startTime session)
      ∧ stopDuration result = Some (nowEnd - startTime session).
Proof.
  intros m st sid session nowEnd response blobs localeNow nowUpdated blobNow
    Hs Hr.
  rewrite (stopRecording_found _ _ _ _ _ _ _ localeNow nowUpdated blobNow Hs Hr).
  eexists. split; [reflexivity|]. cbn. done.
Qed.

Lemma sealed_duration_witness :
  activeSessions Scenario.clicked !! Scenario.sid = Some Scenario.sessionAtStop
  ∧ stopMediaRecorder (Scenario.stopReply Scenario.arrived)
    = inr Scenario.arrived
  ∧ ∃ result,
      Scenario.stopped.2 = inr result
      ∧ tlDuration (timeline (projectData result)) = Some (10000 - 0)
      ∧ duration (projectData result) = Some (10000 - 0)
      ∧ stopDuration result = Some (10000 - 0).
Proof.
  assert (activeSessions Scenario.clicked !! Scenario.sid
          = Some Scenario.sessionAtStop) as Hs by (vm_compute; reflexivity).
  assert (stopMediaRecorder (Scenario.stopReply Scenario.arrived)
          = inr Scenario.arrived) as Hr by reflexivity.
  split; [exact Hs|]. split; [exact Hr|].
  exact (sealed_duration_is_wall_clock_span Scenario.clicked [] Scenario.sid
           Scenario.sessionAtStop 10000 (Scenario.stopReply Scenario.arrived)
           Scenario.arrived "1/1/1970" 10001 (λ _, 10002) Hs Hr).
Defined.

End SessionFacts.

(** * Sealing: the order of the video segments *)

Module SealFacts.
Import Data RecordingManager Props.

Lemma blobId_inj sid (i j : nat) :
  sid +:+ "_" +:+ Js.num (Z.of_nat i) = sid +:+ "_" +:+ Js.num (Z.of_nat j) →
  i = j.
Proof.
  intros H. apply (inj (String.app sid)) in H.
  apply (inj (String.app "_")) in H.
  unfold Js.num in H. apply (inj pretty) in H. lia.
Qed.

Lemma storeBlobs_get_other sid blobNow blobs :
  ∀ i st k,
    (∀ j, (i ≤ j)%nat → k ≠ "blob_" +:+ (sid +:+ "_" +:+ Js.num (Z.of_nat j))) →
    Store.get k (storeBlobs sid blobNow i blobs st) = Store.get k st.
Proof.
  induction blobs as [|b blobs IH]; intros i st k Hk; [done|].
  cbn [storeBlobs]. rewrite IH.
  - unfold storeBlobData. apply StoreFacts.get_set_ne.
    intros Heq. by apply (Hk i).
  - intros j Hj. apply Hk. lia.
Qed.

Lemma storeBlobs_get sid blobNow blobs :
  ∀ i st j b,
    blobs !! j = Some b →
    Store.get ("blob_" +:+ (sid +:+ "_" +:+ Js.num (Z.of_nat (i + j))))
      (storeBlobs sid blobNow i blobs st)
    = Some (VBlob {| recData := blobData b; recType := blobType b;
                     recSize := blobSize b;
                     recCreatedAt := Some (blobNow (i + j)%nat) |}).
Proof.
  induction blobs as [|b0 blobs IH]; intros i st j b Hj; [done|].
  cbn [storeBlobs]. destruct j as [|j].
  - injection Hj as ->. rewrite Nat.add_0_r. rewrite storeBlobs_get_other.
    + unfold storeBlobData. apply StoreFacts.get_set_eq.
    + intros j Hj Heq. apply (inj (String.app "blob_")) in Heq.
      apply blobId_inj in Heq. lia.
  - replace (i + S j)%nat with (S i + j)%nat by lia. by apply IH.
Qed.

(** C3 as the specification words it: the sealed segments follow
    [sequenceIndex]. For chunks handed over in the order 1, 0, 2 the sealed
    list is not the one sorted by [sequenceIndex]: its sizes read 11, 10, 12. *)
Lemma sealed_segments_not_sorted_by_sequenceIndex :
  ∃ result,
    Scenario.stopped.2 = inr result
    ∧ segSize <$> videoSegments (timeline (projectData result)) = [11; 10; 12]
    ∧ segSize <$> videoSegments_bySequenceIndex Scenario.sid Scenario.arrived
      = [10; 11; 12]
    ∧ videoSegments (timeline (projectData result))
      ≠ videoSegments_bySequenceIndex Scenario.sid Scenario.arrived.
Proof.
  eexists. split; [vm_compute; reflexivity|].
  split; [reflexivity|]. split; [reflexivity|].
  vm_compute. discriminate.
Qed.

(** C3, amended. The sealed timeline lists the video segments in the order
    in which the chunks were handed over: segment [i] describes the [i]-th
    blob of the stop reply (its size and type), carries the blob id
    [<session id>_<i>], and the record stored under that id holds that blob's
    data. No sequence index is read and nothing is sorted. The stand-alone
    recorder likewise keeps its chunks in arrival order. *)
Theorem sealed_segments_follow_arrival_order :
  (∀ m st sid session nowEnd response blobs localeNow nowUpdated blobNow,
     activeSessions m !! sid = Some session →
     stopMediaRecorder response = inr blobs →
     ∃ m' st' result,
       stopRecording sid nowEnd response localeNow nowUpdated blobNow (m, st)
         = ((m', st'), inr result)
       ∧ length (videoSegments (timeline (projectData result))) = length blobs
       ∧ ∀ i blob,
           blobs !! i = Some blob →
           ∃ seg,
             videoSegments (timeline (projectData result)) !! i = Some seg
             ∧ blobId seg = id session +:+ "_" +:+ Js.num (Z.of_nat i)
             ∧ segSize seg = blobSize blob
             ∧ segType seg = blobType blob
             ∧ Store.get ("blob_" +:+ blobId seg) st'
               = Some (VBlob {| recData := blobData blob;
                                recType := blobType blob;
                                recSize := blobSize blob;
                                recCreatedAt := Some (blobNow i) |}))
  ∧ (∀ arrivals r,
       CursorFlowRecorder.recordedChunks (receive arrivals r)
       = CursorFlowRecorder.recordedChunks r ++ omap accepted arrivals).
Proof.
  split.
  - intros m st sid session nowEnd response blobs localeNow nowUpdated blobNow
      Hs Hr.
    rewrite (SessionFacts.stopRecording_found _ _ _ _ _ _ _ localeNow
               nowUpdated blobNow Hs Hr).
    eexists _, _, _. split; [reflexivity|]. cbn.
    split; [apply length_imap|].
    intros i blob Hi. eexists. split.
    { rewrite list_lookup_imap, Hi. reflexivity. }
    cbn. repeat split.
    apply (storeBlobs_get (id session) blobNow blobs 0 st i blob Hi).
  - intros arrivals. induction arrivals as [|d arrivals IH]; intros r.
    + cbn. by rewrite app_nil_r.
    + unfold receive in *. cbn [foldl omap]. rewrite IH.
      destruct d; cbn; by rewrite <- ?app_assoc.
Qed.

Lemma sealed_segments_witness :
  activeSessions Scenario.clicked !! Scenario.sid = Some Scenario.sessionAtStop
  ∧ stopMediaRecorder (Scenario.stopReply Scenario.arrived)
    = inr Scenario.arrived
  ∧ ∃ m' st' result,
      Scenario.stopped = ((m', st'), inr result)
      ∧ length (videoSegments (timeline (projectData result)))
        = length Scenario.arrived
      ∧ ∀ i blob,
          Scenario.arrived !! i = Some blob →
          ∃ seg,
            videoSegments (timeline (projectData result)) !! i = Some seg
            ∧ blobId seg
              = id Scenario.sessionAtStop +:+ "_" +:+ Js.num (Z.of_nat i)
            ∧ segSize seg = blobSize blob
            ∧ segType seg = blobType blob
            ∧ Store.get ("blob_" +:+ blobId seg) st'
              = Some (VBlob {| recData := blobData blob;
                               recType := blobType blob;
                               recSize := blobSize blob;
                               recCreatedAt := Some 10002 |}).
Proof.
  assert (activeSessions Scenario.clicked !! Scenario.sid
          = Some Scenario.sessionAtStop) as Hs by (vm_compute; reflexivity).
  assert (stopMediaRecorder (Scenario.stopReply Scenario.arrived)
          = inr Scenario.arrived) as Hr by reflexivity.
  split; [exact Hs|]. split; [exact Hr|].
  exact (proj1 sealed_segments_follow_arrival_order Scenario.clicked []
           Scenario.sid Scenario.sessionAtStop 10000
           (Scenario.stopReply Scenario.arrived) Scenario.arrived "1/1/1970"
           10001 (λ _, 10002) Hs Hr).
Defined.

End SealFacts.

(** * Starting: a failed start leaves nothing behind *)

Module StartFacts.
Import Data Props.

Lemma startRecording_failed m options nowId nowStart init e :
  RecordingManager.initializeMediaRecorder init = inl e →
  let sessionId :=
    "session_" +:+ Js.num (RecordingManager.recordingId m + 1) +:+ "_"
    +:+ Js.num nowId in
  let r := RecordingManager.startRecording options nowId nowStart init m in
  r.2 = inl e
  ∧ RecordingManager.activeSessions r.1
    = delete sessionId (RecordingManager.activeSessions m).
Proof.
  intros He. cbn zeta. unfold RecordingManager.startRecording. rewrite He.
  split; [done|]. cbn [fst RecordingManager.withSessions
                         RecordingManager.activeSessions].
  destruct init; cbn [RecordingManager.send RecordingManager.activeSessions];
    apply delete_insert_eq.
Qed.

Lemma startRecording_acknowledged m options nowId nowStart init :
  RecordingManager.initializeMediaRecorder init = inr () →
  ∃ session,
    (RecordingManager.startRecording options nowId nowStart init m).2
      = inr session
    ∧ RecordingManager.tabId session = RecordingManager.optTabId options
    ∧ RecordingManager.state session = RecordingManager.recording
    ∧ RecordingManager.activeSessions
        (RecordingManager.startRecording options nowId nowStart init m).1
        !! RecordingManager.id session = Some session.
Proof.
  intros Hok. unfold RecordingManager.startRecording. rewrite Hok.
  eexists. split; [reflexivity|]. cbn. repeat split.
  apply lookup_insert_eq.
Qed.



(** When the picker hands back an empty stream id, the early [return] leaves
    [currentSession] holding the declined session (the [catch] path clears
    it); [isRecording] stays [false], and it alone gates the next start. *)
Lemma recorder_start_declined r s nowId nowStart tab inject :
  CursorFlowRecorder.isRecording r = false →
  CursorFlowRecorder.startRecording s nowId nowStart
    (CursorFlowRecorder.Tabs tab) (CursorFlowRecorder.CaptureStream "")
    inject r
  = ({| CursorFlowRecorder.isRecording := false;
        CursorFlowRecorder.currentSession :=
          Some {| CursorFlowRecorder.id := "recording_" +:+ Js.num nowId;
                  CursorFlowRecorder.startTime := nowStart;
                  CursorFlowRecorder.sessionSettings := s |};
        CursorFlowRecorder.recordedChunks := CursorFlowRecorder.recordedChunks r;
        CursorFlowRecorder.cursorEvents := CursorFlowRecorder.cursorEvents r;
        CursorFlowRecorder.settings := Some s |},
     CursorFlowRecorder.StartFailed "Screen capture permission denied").
Proof.
  intros Hr. unfold CursorFlowRecorder.startRecording. by rewrite Hr.
Qed.



End StartFacts.

(** * The stand-alone recorder: stopping and the recordings list *)

Module RecorderFacts.
Import Data CursorFlowRecorder Props.

Lemma recording_key_ne x : "recording_" +:+ x ≠ "recordings_list".
Proof. intros H. cbv [String.append] in H. discriminate H. Qed.

Lemma saveToStorage_recordingsList recording st :
  recordingsList (saveToStorage recording st)
  = take 10 (recordingSummary recording :: recordingsList st).
Proof.
  unfold saveToStorage, recordingsList at 1.
  rewrite StoreFacts.get_set_eq.
  rewrite (StoreFacts.get_set_ne _ "recordings_list")
    by apply recording_key_ne.
  reflexivity.
Qed.

Lemma saveToStorage_recording recording st :
  Store.get ("recording_" +:+ recordingId recording)
    (saveToStorage recording st) = Some (VRecording recording).
Proof.
  unfold saveToStorage.
  rewrite StoreFacts.get_set_ne.
  - apply StoreFacts.get_set_eq.
  - intros H. symmetry in H. by apply recording_key_ne in H.
Qed.

Lemma receive_recordedChunks arrivals r :
  recordedChunks (receive arrivals r) = recordedChunks r ++ omap accepted arrivals.
Proof.
  revert r. induction arrivals as [|d arrivals IH]; intros r.
  - cbn. by rewrite app_nil_r.
  - unfold receive in *. cbn [foldl omap]. rewrite IH.
    destruct d; cbn; by rewrite <- ?app_assoc.
Qed.

Lemma receive_session arrivals r :
  isRecording (receive arrivals r) = isRecording r
  ∧ currentSession (receive arrivals r) = currentSession r
  ∧ cursorEvents (receive arrivals r) = cursorEvents r
  ∧ settings (receive arrivals r) = settings r.
Proof.
  revert r. induction arrivals as [|d arrivals IH]; intros r; [done|].
  unfold receive in *. cbn [foldl].
  destruct (IH (recordChunk d r)) as (-> & -> & -> & ->). by destruct d.
Qed.

(** The record [saveEmptyRecording] writes for a session. *)
Lemma stopRecording_without_chunks r st cs late now :
  isRecording r = true →
  currentSession r = Some cs →
  recordedChunks r = [] →
  omap accepted late = [] →
  id cs ≠ "" →
  stopRecording late now (r, st)
  = ((failedStop (receive late r),
      saveToStorage
        {| recordingId := id cs; recTimestamp := startTime cs;
           recSettings := sessionSettings cs;
           recDuration := now - startTime cs;
           recCursorEvents := cursorEvents r;
           videoData := None; size := 0; mimeType := "video/webm";
           error := Some "No video data received" |} st),
     StopFailed "this.openRecordingViewer is not a function").
Proof.
  intros Hrec Hcs Hchunks Hlate Hid. unfold stopRecording.
  rewrite Hrec, Hcs. cbn [negb]. fold (receive late r).
  rewrite receive_recordedChunks, Hchunks, Hlate. cbn [app].
  unfold saveEmptyRecording.
  destruct (receive_session late r) as (_ & -> & -> & _). rewrite Hcs.
  cbn [recordingId]. destruct (id cs) eqn:Hidcs; [done|]. reflexivity.
Qed.

(** C5 on the code. A stop with no chunk received does write the record the
    claim describes (no video data, size 0, the error note 'No video data
    received') and puts its summary at the head of [recordings_list]; but
    [stopRecording] then calls [this.openRecordingViewer], which the class
    does not define, and resolves to a failure instead of a success. *)
Theorem stop_without_chunks_saves_then_reports_failure :
  ∀ r st cs late now,
    isRecording r = true →
    currentSession r = Some cs →
    recordedChunks r = [] →
    omap accepted late = [] →
    id cs ≠ "" →
    let out := stopRecording late now (r, st) in
    ∃ recording,
      Store.get ("recording_" +:+ id cs) out.1.2 = Some (VRecording recording)
      ∧ videoData recording = None
      ∧ size recording = 0
      ∧ error recording = Some "No video data received"
      ∧ head (recordingsList out.1.2) = Some (recordingSummary recording)
      ∧ isRecording out.1.1 = false
      ∧ out.2 = StopFailed "this.openRecordingViewer is not a function".
Proof.
  intros r st cs late now Hrec Hcs Hchunks Hlate Hid out. subst out.
  rewrite (stopRecording_without_chunks r st cs late now) by done.
  cbn [fst snd]. eexists. split.
  { apply (saveToStorage_recording
             {| recordingId := id cs; recTimestamp := startTime cs;
                recSettings := sessionSettings cs;
                recDuration := now - startTime cs;
                recCursorEvents := cursorEvents r; videoData := None;
                size := 0; mimeType := "video/webm";
                error := Some "No video data received" |}). }
  cbn [videoData size error]. repeat split.
  by rewrite saveToStorage_recordingsList.
Qed.

Lemma stop_without_chunks_witness :
  isRecording Scenario.recorderStarted = true
  ∧ currentSession Scenario.recorderStarted = Some Scenario.recorderSession
  ∧ recordedChunks Scenario.recorderStarted = []
  ∧ ∃ recording,
      Store.get "recording_recording_0"
        (stopRecording [] 3000 (Scenario.recorderStarted, [])).1.2
        = Some (VRecording recording)
      ∧ videoData recording = None
      ∧ size recording = 0
      ∧ error recording = Some "No video data received"
      ∧ head (recordingsList
                (stopRecording [] 3000 (Scenario.recorderStarted, [])).1.2)
        = Some (recordingSummary recording)
      ∧ isRecording (stopRecording [] 3000 (Scenario.recorderStarted, [])).1.1
        = false
      ∧ (stopRecording [] 3000 (Scenario.recorderStarted, [])).2
        = StopFailed "this.openRecordingViewer is not a function".
Proof.
  assert (isRecording Scenario.recorderStarted = true) as H1 by reflexivity.
  assert (currentSession Scenario.recorderStarted
          = Some Scenario.recorderSession) as H2 by reflexivity.
  assert (recordedChunks Scenario.recorderStarted = []) as H3 by reflexivity.
  assert (id Scenario.recorderSession ≠ "") as H4 by discriminate.
  split; [exact H1|]. split; [exact H2|]. split; [exact H3|].
  exact (stop_without_chunks_saves_then_reports_failure
           Scenario.recorderStarted [] Scenario.recorderSession [] 3000
           H1 H2 H3 eq_refl H4).
Defined.


End RecorderFacts.

(** * The project manager: recent projects and loading *)

Module ProjectFacts.
Import Data ProjectManager Props.

Lemma updateRecentProjects_recentProjects p st :
  recentProjects (updateRecentProjects p st)
  = take 20 (summary p :: filter (λ q, sumId q ≠ projectId p) (recentProjects st)).
Proof.
  unfold updateRecentProjects, recentProjects at 1.
  by rewrite StoreFacts.get_set_eq.
Qed.


(** C10. [loadProject] of a stored project is a write: the record put back
    under [project_<id>] and returned to the caller is the stored project
    with [lastAccessed] set to the clock reading; each of its other fields is
    what it was, and so is every other key of the storage. *)
Theorem loadProject_touches_lastAccessed_only :
  ∀ pid now st project,
    Store.get ("project_" +:+ pid) st = Some (VProject project) →
    ∃ loaded,
      loadProject pid now st
      = (Store.set ("project_" +:+ pid) (VProject loaded) st, inr loaded)
      ∧ Store.get ("project_" +:+ pid) (loadProject pid now st).1
        = Some (VProject loaded)
      ∧ lastAccessed loaded = Some now
      ∧ projectId loaded = projectId project
      ∧ name loaded = name project
      ∧ createdAt loaded = createdAt project
      ∧ updatedAt loaded = updatedAt project
      ∧ duration loaded = duration project
      ∧ settings loaded = settings project
      ∧ timeline loaded = timeline project
      ∧ export loaded = export project
      ∧ thumbnail loaded = thumbnail project
      ∧ savedAt loaded = savedAt project
      ∧ importedAt loaded = importedAt project
      ∧ ∀ k, k ≠ "project_" +:+ pid →
             Store.get k (loadProject pid now st).1 = Store.get k st.
Proof.
  intros pid now st project Hget. unfold loadProject. rewrite Hget.
  exists (setLastAccessed now project). cbn [fst].
  split; [done|]. split; [apply StoreFacts.get_set_eq|].
  repeat (split; [done|]).
  intros k Hk. by apply StoreFacts.get_set_ne.
Qed.

Lemma loadProject_witness :
  Store.get ("project_" +:+ "project_session_1_0") Scenario.persisted
    = Some (VProject Scenario.project)
  ∧ ∃ loaded,
      loadProject "project_session_1_0" 20000 Scenario.persisted
      = (Store.set ("project_" +:+ "project_session_1_0") (VProject loaded)
           Scenario.persisted, inr loaded)
      ∧ lastAccessed loaded = Some 20000
      ∧ lastAccessed Scenario.project = None
      ∧ timeline loaded = timeline Scenario.project.
Proof.
  assert (Store.get ("project_" +:+ "project_session_1_0") Scenario.persisted
          = Some (VProject Scenario.project)) as H by reflexivity.
  split; [exact H|].
  destruct (loadProject_touches_lastAccessed_only "project_session_1_0" 20000
              Scenario.persisted Scenario.project H)
    as (loaded & H1 & _ & H2 & _ & _ & _ & _ & _ & _ & H3 & _).
  exists loaded. split; [exact H1|]. split; [exact H2|].
  split; [reflexivity | exact H3].
Defined.

End ProjectFacts.

(** * Eviction: cleanupStorage and performMaintenance *)

Module EvictionFacts.
Import Data StorageManager Props.

(** C6 on the code. The worked recording is persisted with referential
    integrity: the project lists the blob ids [session_1_0_0..2] and the three
    records exist. [cleanupStorage] then looks for the project id
    [project_session_1_0] inside each blob id, finds it in none, counts all
    three records as orphaned and removes them, whatever the usage; the
    project stays and now lists blobs that do not exist. [deleteProject]
    looks for the same substring in the blob keys, so it removes the project
    and leaves its three records behind. *)
Theorem cleanup_removes_blobs_of_a_live_project :
  referentialIntegrity Scenario.persisted = true
  ∧ getProjectIdsFromData Scenario.persisted = ["project_session_1_0"]
  ∧ orphanedBlobs (λ _, 20000) Scenario.persisted
    = ["blob_session_1_0_0"; "blob_session_1_0_1"; "blob_session_1_0_2"]
  ∧ Store.keys (cleanupStorage (λ _, 20000) None 20001 Scenario.persisted)
    = ["project_project_session_1_0"; "recent_projects"; "cleanup_stats"]
  ∧ referentialIntegrity
      (cleanupStorage (λ _, 20000) None 20001 Scenario.persisted) = false
  ∧ ProjectManager.projectBlobKeys "project_session_1_0" Scenario.persisted = []
  ∧ Store.keys (ProjectManager.deleteProject "project_session_1_0"
                  Scenario.persisted)
    = ["blob_session_1_0_0"; "blob_session_1_0_1"; "blob_session_1_0_2";
       "recent_projects"].
Proof. repeat split; vm_compute; reflexivity. Qed.

Lemma temp_not_project k :
  Js.startsWith "temp_" k || Js.startsWith "cache_" k →
  Js.startsWith "project_" k = false.
Proof.
  destruct k as [|a k]; [done|]. cbn [Js.startsWith].
  repeat (case_decide; subst); done.
Qed.

Lemma blob_not_project k :
  Js.startsWith "blob_" k → Js.startsWith "project_" k = false.
Proof.
  destruct k as [|a k]; [done|]. cbn [Js.startsWith].
  repeat (case_decide; subst); done.
Qed.

Lemma blob_not_temp k :
  Js.startsWith "blob_" k →
  ¬ (Js.startsWith "temp_" k || Js.startsWith "cache_" k).
Proof.
  destruct k as [|a k]; [done|]. cbn [Js.startsWith].
  repeat (case_decide; subst); try done. cbn. tauto.
Qed.

Lemma omap_filter_None {A B} (f : A → option B) (P : A → Prop)
    `{!∀ x, Decision (P x)} (l : list A) :
  (∀ x, ¬ P x → f x = None) → omap f (filter P l) = omap f l.
Proof.
  intros Hf. induction l as [|x l IH]; [done|].
  rewrite filter_cons. destruct (decide (P x)) as [Hx|Hx]; csimpl.
  - by rewrite IH.
  - by rewrite (Hf x Hx), IH.
Qed.

Lemma omap_set_None {B} (f : string * Value → option B) k v (st : Storage) :
  (∀ v', f (k, v') = None) → omap f (Store.set k v st) = omap f st.
Proof.
  intros Hf. induction st as [|[k0 v0] st IH]; cbn [Store.set]; csimpl.
  - by rewrite Hf.
  - destruct (decide (k0 = k)) as [->|Hne]; csimpl.
    + by rewrite !Hf.
    + by rewrite IH.
Qed.

Lemma getProjectIdsFromData_remove ks (st : Storage) :
  (∀ k, k ∈ ks → Js.startsWith "project_" k = false) →
  getProjectIdsFromData (Store.remove ks st) = getProjectIdsFromData st.
Proof.
  intros Hks. unfold getProjectIdsFromData, Store.remove.
  apply omap_filter_None. intros [k v] Hk. cbn [fst snd] in *.
  apply dec_stable in Hk. by rewrite (Hks k Hk).
Qed.

Lemma getProjectIdsFromData_set k v (st : Storage) :
  Js.startsWith "project_" k = false →
  getProjectIdsFromData (Store.set k v st) = getProjectIdsFromData st.
Proof.
  intros Hk. unfold getProjectIdsFromData.
  apply omap_set_None. intros v'. cbn [fst]. by rewrite Hk.
Qed.

Lemma filter_none {A} (P : A → Prop) `{!∀ x, Decision (P x)} (l : list A) :
  (∀ x, x ∈ l → ¬ P x) → filter P l = [].
Proof.
  intros Hall. induction l as [|x l IH]; [done|].
  rewrite filter_cons. destruct (decide (P x)) as [Hx|Hx].
  - destruct (Hall x); [by apply elem_of_cons; left | done].
  - apply IH. intros y Hy. apply Hall. by apply elem_of_cons; right.
Qed.

Lemma classify_orphaned allData projectIds nowAt ks :
  ∀ i, (classify allData projectIds nowAt i ks).1
       = filter (λ k, isReferenced projectIds k = false) ks.
Proof.
  induction ks as [|k ks IH]; intros i; [done|].
  cbn [classify]. specialize (IH (S i)).
  destruct (classify allData projectIds nowAt (S i) ks) as [orph old].
  cbn [fst] in IH. rewrite filter_cons.
  destruct (isReferenced projectIds k) eqn:Hk; cbn [negb].
  - rewrite decide_False by done.
    by destruct (isOldBlob (nowAt i) (Store.get k allData)).
  - rewrite decide_True by done. cbn [fst]. by rewrite IH.
Qed.

Lemma classify_old_subset allData projectIds nowAt ks :
  ∀ i k, k ∈ (classify allData projectIds nowAt i ks).2 → k ∈ ks.
Proof.
  induction ks as [|k0 ks IH]; intros i k; [done|].
  cbn [classify]. specialize (IH (S i) k).
  destruct (classify allData projectIds nowAt (S i) ks) as [orph old].
  cbn [snd] in IH. rewrite elem_of_cons.
  destruct (isReferenced projectIds k0); cbn [negb].
  - destruct (isOldBlob (nowAt i) (Store.get k0 allData)); cbn [snd].
    + intros [->|?]%elem_of_cons; [by left | right; auto].
    + right; auto.
  - cbn [snd]. right; auto.
Qed.

Lemma blobKeys_prefix k (st : Storage) :
  k ∈ blobKeys st ↔ Js.startsWith "blob_" k ∧ k ∈ Store.keys st.
Proof. unfold blobKeys. by rewrite list_elem_of_filter. Qed.

Lemma orphanedBlobs_spec nowAt k (st : Storage) :
  k ∈ orphanedBlobs nowAt st
  ↔ isReferenced (getProjectIdsFromData st) k = false ∧ k ∈ blobKeys st.
Proof.
  unfold orphanedBlobs. rewrite classify_orphaned.
  by rewrite list_elem_of_filter.
Qed.

Lemma blobsToRemove_subset usage old k : k ∈ blobsToRemove usage old → k ∈ old.
Proof.
  unfold blobsToRemove. destruct usage as [p|]; [|by intros ?%elem_of_nil].
  destruct (decide (p > maxStorageUsage)); [|by intros ?%elem_of_nil].
  unfold Js.slice0. apply subseteq_take.
Qed.

(** The keys that survive a run of [cleanupStorage]. *)
Lemma cleanupStorage_keys nowAt usage nowStats (st : Storage) k :
  k ∈ Store.keys (cleanupStorage nowAt usage nowStats st) →
  (k = "cleanup_stats")
  ∨ ((k ∈ Store.keys st) ∧ (k ∉ tempKeys st) ∧ (k ∉ orphanedBlobs nowAt st)).
Proof.
  unfold cleanupStorage, updateCleanupStats. intros Hk.
  apply StoreFacts.keys_set in Hk. apply elem_of_cons in Hk as [->|Hk];
    [by left | right].
  rewrite !StoreFacts.keys_remove in Hk.
  apply list_elem_of_filter in Hk as [_ Hk].
  apply list_elem_of_filter in Hk as [Horph Hk].
  apply list_elem_of_filter in Hk as [Htemp Hk]. done.
Qed.

(** A run of [cleanupStorage] leaves the set of project ids as it was. *)
Lemma cleanupStorage_projectIds nowAt usage nowStats (st : Storage) :
  getProjectIdsFromData (cleanupStorage nowAt usage nowStats st)
  = getProjectIdsFromData st.
Proof.
  unfold cleanupStorage, updateCleanupStats.
  rewrite getProjectIdsFromData_set by done.
  rewrite !getProjectIdsFromData_remove; [done|..].
  - intros k Hk. apply list_elem_of_filter in Hk as [Hk _].
    by apply temp_not_project.
  - intros k [_ [Hk _]%blobKeys_prefix]%orphanedBlobs_spec.
    by apply blob_not_project.
  - intros k Hk%blobsToRemove_subset. unfold oldBlobs in Hk.
    apply classify_old_subset in Hk. apply blobKeys_prefix in Hk as [Hk _].
    by apply blob_not_project.
Qed.

Lemma cleanupStorage_leaves_no_temp nowAt usage nowStats (st : Storage) :
  tempKeys (cleanupStorage nowAt usage nowStats st) = [].
Proof.
  unfold tempKeys at 1. apply filter_none. intros k Hk Htemp.
  apply cleanupStorage_keys in Hk as [->|(Hk & Hnot & _)]; [done|].
  apply Hnot. unfold tempKeys. by apply list_elem_of_filter.
Qed.

Lemma cleanupStorage_leaves_no_orphan nowAt usage nowStats nowAt' (st : Storage) :
  orphanedBlobs nowAt' (cleanupStorage nowAt usage nowStats st) = [].
Proof.
  unfold orphanedBlobs. rewrite classify_orphaned, cleanupStorage_projectIds.
  apply filter_none. intros k [Hblob Hk]%blobKeys_prefix Hunref.
  apply cleanupStorage_keys in Hk as [->|(Hk & _ & Hnot)]; [done|].
  apply Hnot. apply orphanedBlobs_spec. split; [done|].
  by apply blobKeys_prefix.
Qed.

(** C7 as the specification words it: a second run deletes nothing more.
    Two blob records of a live project are older than thirty days and the
    usage stays above the threshold (90 per cent at both readings, the bulk
    of it held by entries the cleanup never touches): the first run removes
    one of them, the second run removes the other. *)
Lemma second_cleanup_deletes_again :
  let nowAt := λ _ : nat, Scenario.muchLater in
  let afterFirst :=
    cleanupStorage nowAt (Some 90) Scenario.muchLater Scenario.importedStorage in
  removedKeys nowAt (Some 90) Scenario.importedStorage = ["blob_p1_0"]
  ∧ Store.keys afterFirst = ["blob_p1_1"; "project_p1"; "cleanup_stats"]
  ∧ removedKeys nowAt (Some 90) afterFirst = ["blob_p1_1"]
  ∧ removedKeys nowAt (Some 90) afterFirst ≠ [].
Proof. repeat split; vm_compute; (reflexivity || discriminate). Qed.

(** C7, amended. A second run of [cleanupStorage] finds no temporary entry
    and no orphaned blob left, so all it can remove is the first half
    (rounded up) of the blobs that are still referenced and older than thirty
    days, and that only when the usage it reads is above the threshold; with
    usage at or below the threshold, or unavailable, or with no such blob
    left, the second run removes nothing. [performMaintenance] run with usage
    at or below the threshold (or unavailable) removes nothing: it only
    writes [lastMaintenance]. *)
Theorem second_cleanup_removes_only_old_blobs_over_threshold :
  (∀ st nowAt usage nowStats nowAt' usage',
     let st' := cleanupStorage nowAt usage nowStats st in
     tempKeys st' = []
     ∧ orphanedBlobs nowAt' st' = []
     ∧ removedKeys nowAt' usage' st'
       = blobsToRemove usage' (oldBlobs nowAt' st')
     ∧ (match usage' with
        | Some percentage => percentage ≤ maxStorageUsage
        | None => True
        end → removedKeys nowAt' usage' st' = [])
     ∧ (oldBlobs nowAt' st' = [] → removedKeys nowAt' usage' st' = []))
  ∧ (∀ st usage nowAt usageAfterOrphans nowStats nowMaintenance,
       match usage with
       | Some percentage => percentage ≤ maxStorageUsage
       | None => True
       end →
       performMaintenance usage nowAt usageAfterOrphans nowStats
         nowMaintenance st
       = Store.set "lastMaintenance" (VNumber nowMaintenance) st).
Proof.
  split.
  - intros st nowAt usage nowStats nowAt' usage' st'.
    assert (removedKeys nowAt' usage' st'
            = blobsToRemove usage' (oldBlobs nowAt' st')) as Hremoved.
    { unfold removedKeys, st'.
      by rewrite cleanupStorage_leaves_no_temp, cleanupStorage_leaves_no_orphan. }
    split; [apply cleanupStorage_leaves_no_temp|].
    split; [apply cleanupStorage_leaves_no_orphan|].
    split; [done|]. rewrite Hremoved. split.
    + unfold blobsToRemove. destruct usage' as [p|]; [|done].
      intros Hp. rewrite decide_False; [done | lia].
    + intros ->. unfold blobsToRemove.
      destruct usage' as [p|]; [|done]. by destruct (decide _).
  - intros st usage nowAt usageAfterOrphans nowStats nowMaintenance Husage.
    unfold performMaintenance. destruct usage as [p|]; [|done].
    rewrite decide_False; [done | lia].
Qed.

Lemma second_cleanup_witness :
  (80 ≤ maxStorageUsage)
  ∧ removedKeys (λ _, Scenario.muchLater) (Some 80)
      (cleanupStorage (λ _, Scenario.muchLater) (Some 90) Scenario.muchLater
         Scenario.importedStorage) = []
  ∧ performMaintenance (Some 80) (λ _, Scenario.muchLater) (Some 80)
      Scenario.muchLater Scenario.muchLater Scenario.importedStorage
    = Store.set "lastMaintenance" (VNumber Scenario.muchLater)
        Scenario.importedStorage.
Proof.
  assert (80 ≤ maxStorageUsage) as H by (unfold maxStorageUsage; lia).
  split; [exact H|]. split.
  - exact (proj1 (proj2 (proj2 (proj2
             (proj1 second_cleanup_removes_only_old_blobs_over_threshold
                Scenario.importedStorage (λ _, Scenario.muchLater) (Some 90)
                Scenario.muchLater (λ _, Scenario.muchLater) (Some 80))))) H).
  - exact (proj2 second_cleanup_removes_only_old_blobs_over_threshold
             Scenario.importedStorage (Some 80) (λ _, Scenario.muchLater)
             (Some 80) Scenario.muchLater Scenario.muchLater H).
Defined.

End EvictionFacts.

(** * The recording manager: events, stop outcomes and tab cleanup *)

Module RegistryFacts.
Import Data RecordingManager Props.

Lemma recorded_addCursorEvent_other m data t1 t2 sid :
  sessionId data ≠ sid →
  recorded (addCursorEvent data t1 t2 m).1 sid = recorded m sid.
Proof.
  intros Hne. unfold addCursorEvent, recorded.
  destruct (activeSessions m !! sessionId data) as [session|]; [|done].
  cbn [fst withSessions activeSessions]. by rewrite lookup_insert_ne.
Qed.

Lemma recorded_addCursorEvent_same m data t1 t2 st0 state0 pt tot :
  phase m (sessionId data) = Some (st0, state0, pt, tot) →
  recorded (addCursorEvent data t1 t2 m).1 (sessionId data)
  = recorded m (sessionId data)
    ++ [stamped st0 tot {| arrivalData := data; arrivalTimestamp := t1;
                          arrivalRelative := t2 |}].
Proof.
  intros (s & Hs & <- & _ & _ & <-)%SessionFacts.phase_Some.
  rewrite (SessionFacts.addCursorEvent_found _ _ _ _ _ Hs).
  unfold recorded. cbn [fst withSessions activeSessions].
  by rewrite lookup_insert_eq, Hs.
Qed.

Lemma recorded_deliver arrivals :
  ∀ m sid st0 state0 pt tot,
    phase m sid = Some (st0, state0, pt, tot) →
    recorded (deliver arrivals m) sid
    = recorded m sid
      ++ (stamped st0 tot
          <$> filter (λ a, sessionId (arrivalData a) = sid) arrivals).
Proof.
  induction arrivals as [|a arrivals IH]; intros m sid st0 state0 pt tot Hphase.
  - cbn. by rewrite app_nil_r.
  - unfold deliver in *. cbn [foldl].
    rewrite (IH _ sid st0 state0 pt tot)
      by (by rewrite SessionFacts.addCursorEvent_phase).
    rewrite filter_cons.
    destruct (decide (sessionId (arrivalData a) = sid)) as [<-|Hne].
    + rewrite (recorded_addCursorEvent_same _ _ _ _ _ _ _ _ Hphase).
      rewrite fmap_cons, <- app_assoc. by destruct a.
    + by rewrite recorded_addCursorEvent_other.
Qed.



(** X2. Cursor events are kept in arrival order. After a run of CURSOR_EVENT
    messages, the events of a session are the ones it had, followed by one
    event per message addressed to it, in the order of arrival, each stamped
    with its own clock readings against the session's start time and
    accumulated pause duration; messages for other sessions leave no trace
    in it. *)
Theorem cursor_events_kept_in_arrival_order :
  ∀ arrivals m sid session,
    activeSessions m !! sid = Some session →
    recorded (deliver arrivals m) sid
    = cursorEvents session
      ++ (stamped (startTime session) (totalPauseDuration session)
          <$> filter (λ a, sessionId (arrivalData a) = sid) arrivals).
Proof.
  intros arrivals m sid session Hs.
  rewrite (recorded_deliver arrivals m sid (startTime session) (state session)
             (pauseTime session) (totalPauseDuration session)).
  - unfold recorded. by rewrite Hs.
  - unfold phase. by rewrite Hs.
Qed.

Lemma cursor_events_order_witness :
  activeSessions Scenario.started !! Scenario.sid = Some Scenario.session0
  ∧ relativeTime
    <$> recorded
          (deliver
             [{| arrivalData := Scenario.click 100; arrivalTimestamp := 100;
                 arrivalRelative := 101 |};
              {| arrivalData := Scenario.click 200; arrivalTimestamp := 200;
                 arrivalRelative := 201 |}] Scenario.started) Scenario.sid
    = [101; 201].
Proof.
  assert (activeSessions Scenario.started !! Scenario.sid
          = Some Scenario.session0) as H by (vm_compute; reflexivity).
  split; [exact H|].
  rewrite (cursor_events_kept_in_arrival_order _ _ _ _ H). reflexivity.
Defined.

Lemma StronglySorted_filter_sub {A} (R : relation A) (P : A → Prop)
    `{!∀ x, Decision (P x)} (l : list A) :
  StronglySorted R l → StronglySorted R (filter P l).
Proof.
  induction 1 as [|x l Hl IH Hx]; [constructor|].
  rewrite filter_cons. destruct (decide (P x)); [|done].
  constructor; [done|]. apply Forall_forall.
  intros y [_ Hy]%list_elem_of_filter.
  rewrite Forall_forall in Hx. by apply Hx.
Qed.

Lemma StronglySorted_fmap_mono {A B} (R : relation A) (S : relation B)
    (f : A → B) (l : list A) :
  (∀ x y, R x y → S (f x) (f y)) →
  StronglySorted R l → StronglySorted S (f <$> l).
Proof.
  intros Hf. induction 1 as [|x l Hl IH Hx]; [constructor|].
  rewrite fmap_cons. constructor; [done|].
  apply Forall_fmap. eapply Forall_impl; [exact Hx|]. intros y. apply Hf.
Qed.

(** X3. Between pauses relative time follows the clock: when the clock
    readings of a run of CURSOR_EVENT messages do not decrease, the
    [relativeTime] values of the events the run adds to a session do not
    decrease either. *)
Theorem relativeTime_monotone_within_a_run :
  ∀ arrivals m sid session,
    activeSessions m !! sid = Some session →
    StronglySorted (λ a b, arrivalRelative a ≤ arrivalRelative b) arrivals →
    StronglySorted (λ e1 e2, relativeTime e1 ≤ relativeTime e2)
      (drop (length (cursorEvents session))
         (recorded (deliver arrivals m) sid)).
Proof.
  intros arrivals m sid session Hs Hsorted.
  rewrite (recorded_deliver arrivals m sid (startTime session) (state session)
             (pauseTime session) (totalPauseDuration session))
    by (unfold phase; by rewrite Hs).
  unfold recorded. rewrite Hs, drop_app_length.
  apply (StronglySorted_fmap_mono
           (λ a b, arrivalRelative a ≤ arrivalRelative b)).
  - intros a b Hab. cbn. lia.
  - by apply StronglySorted_filter_sub.
Qed.

Lemma relativeTime_monotone_witness :
  activeSessions Scenario.started !! Scenario.sid = Some Scenario.session0
  ∧ StronglySorted (λ e1 e2, relativeTime e1 ≤ relativeTime e2)
      (drop (length (cursorEvents Scenario.session0))
         (recorded
            (deliver
               [{| arrivalData := Scenario.click 100; arrivalTimestamp := 100;
                   arrivalRelative := 101 |};
                {| arrivalData := Scenario.click 200; arrivalTimestamp := 200;
                   arrivalRelative := 201 |}] Scenario.started) Scenario.sid)).
Proof.
  assert (activeSessions Scenario.started !! Scenario.sid
          = Some Scenario.session0) as H by (vm_compute; reflexivity).
  split; [exact H|].
  apply (relativeTime_monotone_within_a_run _ _ _ _ H).
  repeat (constructor; cbn [arrivalRelative]); lia.
Defined.

(** X4. Across a resume relative time can step back. For a session paused
    at [tp] and resumed at [tr], an event that arrives during the pause at
    reading [td] is recorded with [td - startTime], an event that arrives
    after the resume at reading [t] with [t - startTime - (tr - tp)]; so
    whenever [t < td + (tr - tp)] the later event carries the smaller
    [relativeTime]. *)
Theorem event_during_pause_can_outrun_a_later_one :
  ∀ m session tp td tr t data,
    activeSessions m !! sessionId data = Some session →
    state session = recording →
    totalPauseDuration session = None →
    let m1 := (pauseRecording (sessionId data) tp m).1 in
    let m2 := (addCursorEvent data td td m1).1 in
    let m3 := (resumeRecording (sessionId data) tr m2).1 in
    let m4 := (addCursorEvent data t t m3).1 in
    ∃ e1 e2,
      recorded m4 (sessionId data) = cursorEvents session ++ [e1; e2]
      ∧ relativeTime e1 = td - startTime session
      ∧ relativeTime e2 = t - startTime session - (tr - tp)
      ∧ (t < td + (tr - tp) → relativeTime e2 < relativeTime e1).
Proof.
  intros m session tp td tr t data Hs Hstate Htot m1 m2 m3 m4.
  assert (phase m (sessionId data)
          = Some (startTime session, recording, pauseTime session, None)) as H0.
  { unfold phase. rewrite Hs. cbn. by rewrite Hstate, Htot. }
  assert (recorded m1 (sessionId data) = cursorEvents session) as Hrec1.
  { unfold m1, pauseRecording, recorded. rewrite Hs, decide_True by done.
    cbn [fst send withSessions activeSessions]. by rewrite lookup_insert_eq. }
  apply (SessionFacts.pauseRecording_phase _ _ tp) in H0. fold m1 in H0.
  pose proof (recorded_addCursorEvent_same m1 data td td _ _ _ _ H0) as Hrec2.
  fold m2 in Hrec2.
  rewrite <- (SessionFacts.addCursorEvent_phase m1 data td td) in H0.
  fold m2 in H0.
  assert (recorded m3 (sessionId data) = recorded m2 (sessionId data)) as Hrec3.
  { destruct (SessionFacts.phase_Some _ _ _ _ _ _ H0)
      as (s2 & Hs2 & _ & Hst2 & _).
    unfold m3, resumeRecording, recorded. rewrite Hs2, decide_True by done.
    cbn [fst send withSessions activeSessions]. by rewrite lookup_insert_eq. }
  apply (SessionFacts.resumeRecording_phase _ _ tr) in H0. fold m3 in H0.
  pose proof (recorded_addCursorEvent_same m3 data t t _ _ _ _ H0) as Hrec4.
  fold m4 in Hrec4.
  eexists _, _. split.
  { rewrite Hrec4, Hrec3, Hrec2, Hrec1, <- app_assoc. reflexivity. }
  cbn. repeat split; lia.
Qed.

Lemma event_during_pause_witness :
  activeSessions Scenario.started !! sessionId (Scenario.click 0)
    = Some Scenario.session0
  ∧ ∃ e1 e2,
      recorded
        (addCursorEvent (Scenario.click 0) 7000 7000
           (resumeRecording Scenario.sid 7000
              (addCursorEvent (Scenario.click 0) 6900 6900
                 (pauseRecording Scenario.sid 5000 Scenario.started).1).1).1).1
        Scenario.sid
      = [e1; e2]
      ∧ relativeTime e2 < relativeTime e1.
Proof.
  assert (activeSessions Scenario.started !! sessionId (Scenario.click 0)
          = Some Scenario.session0) as H by (vm_compute; reflexivity).
  split; [exact H|].
  destruct (event_during_pause_can_outrun_a_later_one Scenario.started
              Scenario.session0 5000 6900 7000 7000 (Scenario.click 0) H
              eq_refl eq_refl) as (e1 & e2 & H1 & _ & _ & H2).
  exists e1, e2. split; [exact H1|]. apply H2. lia.
Defined.

(** X5. A stop that cannot finish does not close the session. For an
    unknown session id [stopRecording] throws 'Recording session not found'
    and nothing changes. When the content script's reply to
    STOP_MEDIA_RECORDER is missing or unsuccessful, [stopRecording] throws
    that error, writes nothing to storage, and the session stays in
    [activeSessions], in state 'error' with [endTime] set; every other
    session is untouched. *)
Theorem failed_stop_leaves_session_registered :
  ∀ m st sid nowEnd response localeNow nowUpdated blobNow,
    let out :=
      stopRecording sid nowEnd response localeNow nowUpdated blobNow (m, st) in
    (activeSessions m !! sid = None →
     out = ((m, st), inl ("Recording session not found: " +:+ sid)))
    ∧ (∀ session e,
         activeSessions m !! sid = Some session →
         stopMediaRecorder response = inl e →
         out.2 = inl e
         ∧ out.1.2 = st
         ∧ (∃ session',
              activeSessions out.1.1 !! sid = Some session'
              ∧ state session' = errored
              ∧ endTime session' = Some nowEnd
              ∧ cursorEvents session' = cursorEvents session
              ∧ videoBlobs session' = videoBlobs session)
         ∧ ∀ k, k ≠ sid →
             activeSessions out.1.1 !! k = activeSessions m !! k).
Proof.
  intros m st sid nowEnd response localeNow nowUpdated blobNow out.
  subst out. unfold stopRecording. split.
  - intros ->. done.
  - intros session e -> ->.
    cbn [fst snd send withSessions activeSessions].
    split; [done|]. split; [done|]. split.
    + eexists. split; [by rewrite lookup_insert_eq|]. done.
    + intros k Hk. by rewrite !lookup_insert_ne.
Qed.

Lemma failed_stop_witness :
  activeSessions Scenario.clicked !! Scenario.sid = Some Scenario.sessionAtStop
  ∧ stopMediaRecorder None = inl "Failed to stop media recorder"
  ∧ (stopRecording Scenario.sid 10000 None "1/1/1970" 10001 (λ _, 10002)
       (Scenario.clicked, [])).2
    = inl "Failed to stop media recorder"
  ∧ (stopRecording Scenario.sid 10000 None "1/1/1970" 10001 (λ _, 10002)
       (Scenario.clicked, [])).1.2 = [].
Proof.
  assert (activeSessions Scenario.clicked !! Scenario.sid
          = Some Scenario.sessionAtStop) as H by (vm_compute; reflexivity).
  split; [exact H|]. split; [reflexivity|].
  destruct (proj2 (failed_stop_leaves_session_registered Scenario.clicked []
                     Scenario.sid 10000 None "1/1/1970" 10001 (λ _, 10002))
              Scenario.sessionAtStop _ H eq_refl) as (H1 & H2 & _).
  split; [exact H1 | exact H2].
Defined.

(** X6. [stopRecording] has no state guard and closes exactly one session.
    Whatever state the session is in (recording, paused, starting, even
    'error' after a failed stop), once the content script hands the blobs
    over the call succeeds: the session is gone from [activeSessions], every
    other session is untouched, the project is named after the session and
    carries its cursor events, and in storage only keys of the form
    [blob_<session id>_<i>] are written. *)
Theorem stop_closes_one_session_whatever_its_state :
  ∀ m st sid session nowEnd response blobs localeNow nowUpdated blobNow,
    activeSessions m !! sid = Some session →
    stopMediaRecorder response = inr blobs →
    let out :=
      stopRecording sid nowEnd response localeNow nowUpdated blobNow (m, st) in
    (∃ result,
       out.2 = inr result
       ∧ stopSuccess result = true
       ∧ stopSessionId result = sid
       ∧ projectId (projectData result) = "project_" +:+ id session
       ∧ tlCursorEvents (timeline (projectData result)) = cursorEvents session)
    ∧ activeSessions out.1.1 !! sid = None
    ∧ (∀ k, k ≠ sid → activeSessions out.1.1 !! k = activeSessions m !! k)
    ∧ (∀ key,
         (∀ i : nat,
            key ≠ "blob_" +:+ (id session +:+ "_" +:+ Js.num (Z.of_nat i))) →
         Store.get key out.1.2 = Store.get key st).
Proof.
  intros m st sid session nowEnd response blobs localeNow nowUpdated blobNow
    Hs Hr out. subst out.
  rewrite (SessionFacts.stopRecording_found _ _ _ _ _ _ _ localeNow
             nowUpdated blobNow Hs Hr).
  cbn [fst snd send withSessions activeSessions].
  split; [eexists; split; [reflexivity|]; cbn; done|].
  split; [apply lookup_delete_eq|]. split.
  - intros k Hk. by rewrite lookup_delete_ne, lookup_insert_ne.
  - intros key Hkey. cbn. apply SealFacts.storeBlobs_get_other.
    intros j _. apply Hkey.
Qed.

Lemma stop_closes_witness :
  activeSessions (pauseRecording Scenario.sid 5000 Scenario.started).1
    !! Scenario.sid = Some (setPaused 5000 Scenario.session0)
  ∧ stopMediaRecorder (Scenario.stopReply Scenario.arrived)
    = inr Scenario.arrived
  ∧ activeSessions
      (stopRecording Scenario.sid 10000 (Scenario.stopReply Scenario.arrived)
         "1/1/1970" 10001 (λ _, 10002)
         ((pauseRecording Scenario.sid 5000 Scenario.started).1, [])).1.1
      !! Scenario.sid = None.
Proof.
  assert (activeSessions (pauseRecording Scenario.sid 5000 Scenario.started).1
            !! Scenario.sid = Some (setPaused 5000 Scenario.session0)) as H
    by (vm_compute; reflexivity).
  split; [exact H|]. split; [reflexivity|].
  exact (proj1 (proj2 (stop_closes_one_session_whatever_its_state
                         (pauseRecording Scenario.sid 5000 Scenario.started).1
                         [] Scenario.sid _ 10000
                         (Scenario.stopReply Scenario.arrived) Scenario.arrived
                         "1/1/1970" 10001 (λ _, 10002) H eq_refl))).
Defined.

Lemma cleanupSession_registry inputs w sid :
  activeSessions (cleanupSession inputs w sid).1 !! sid = None
  ∧ ∀ k, k ≠ sid →
      activeSessions (cleanupSession inputs w sid).1 !! k
      = activeSessions w.1 !! k.
Proof.
  destruct w as [m st]. unfold cleanupSession.
  destruct (activeSessions m !! sid) as [session|] eqn:Hs.
  - destruct (stopMediaRecorder (stopResponse (inputs sid)))
      as [e|blobs] eqn:Hr.
    + unfold stopRecording. rewrite Hs, Hr.
      cbn [fst snd send withSessions activeSessions].
      split; [apply lookup_delete_eq|].
      intros k Hk. by rewrite lookup_delete_ne, !lookup_insert_ne.
    + rewrite (SessionFacts.stopRecording_found _ _ _ _ _ _ _ _ _ _ Hs Hr).
      cbn [fst snd send withSessions activeSessions].
      split; [apply lookup_delete_eq|].
      intros k Hk. by rewrite lookup_delete_ne, lookup_insert_ne.
  - unfold stopRecording. rewrite Hs.
    cbn [fst withSessions activeSessions].
    split; [apply lookup_delete_eq|]. intros k Hk. by rewrite lookup_delete_ne.
Qed.

Lemma cleanup_fold_registry inputs ids :
  ∀ w,
    let w' := foldl (cleanupSession inputs) w ids in
    (∀ k, k ∈ ids → activeSessions w'.1 !! k = None)
    ∧ (∀ k, k ∉ ids → activeSessions w'.1 !! k = activeSessions w.1 !! k).
Proof.
  induction ids as [|sid ids IH]; intros w; cbn [foldl].
  - split; [by intros k ?%elem_of_nil | done].
  - destruct (IH (cleanupSession inputs w sid)) as [IH1 IH2].
    destruct (cleanupSession_registry inputs w sid) as [H1 H2].
    split.
    + intros k Hk. destruct (decide (k ∈ ids)) as [Hin|Hnin]; [by apply IH1|].
      rewrite IH2 by done. apply elem_of_cons in Hk as [->|?]; done.
    + intros k Hk. apply not_elem_of_cons in Hk as [Hne Hnin].
      rewrite IH2 by done. by apply H2.
Qed.

Lemma sessionsToCleanup_spec tab m k :
  k ∈ sessionsToCleanup tab m
  ↔ ∃ s, activeSessions m !! k = Some s ∧ tabId s = tab.
Proof.
  unfold sessionsToCleanup. rewrite list_elem_of_fmap. split.
  - intros ([k' s] & -> & [Htab Hin%elem_of_map_to_list]%list_elem_of_filter).
    by exists s.
  - intros (s & Hs & Htab). exists (k, s). split; [done|].
    apply list_elem_of_filter. split; [done|]. by apply elem_of_map_to_list.
Qed.

(** X7. [cleanupTab] clears a closed tab out of the registry whatever the
    content script answers: afterwards [activeSessions] holds no session of
    that tab, and it holds every session of every other tab exactly as
    before. *)
Theorem cleanupTab_removes_the_tabs_sessions :
  ∀ tab inputs w sid,
    activeSessions (cleanupTab tab inputs w).1 !! sid
    = match activeSessions w.1 !! sid with
      | Some s => if decide (tabId s = tab) then None else Some s
      | None => None
      end.
Proof.
  intros tab inputs w sid. unfold cleanupTab.
  destruct (cleanup_fold_registry inputs (sessionsToCleanup tab w.1) w)
    as [Hin Hout].
  destruct (activeSessions w.1 !! sid) as [s|] eqn:Hs.
  - destruct (decide (tabId s = tab)) as [Htab|Htab].
    + apply Hin. apply sessionsToCleanup_spec. by exists s.
    + rewrite Hout; [done|].
      intros (s' & Hs' & Htab')%sessionsToCleanup_spec. congruence.
  - rewrite Hout; [done|].
    intros (s' & Hs' & _)%sessionsToCleanup_spec. congruence.
Qed.

Lemma isRecording_spec tab m :
  isRecording tab m = true
  ↔ ∃ sid s, activeSessions m !! sid = Some s
             ∧ tabId s = tab ∧ state s = recording.
Proof.
  unfold isRecording. rewrite existsb_exists. split.
  - intros (s & Hin & Hs). apply bool_decide_eq_true in Hs as [Htab Hstate].
    apply list_elem_of_In, list_elem_of_fmap in Hin as ([sid s'] & -> & Hin).
    apply elem_of_map_to_list in Hin. by exists sid, s'.
  - intros (sid & s & Hs & Htab & Hstate). exists s. split.
    + apply list_elem_of_In, list_elem_of_fmap. exists (sid, s).
      split; [done|]. by apply elem_of_map_to_list.
    + by apply bool_decide_eq_true.
Qed.

(** X8. [isRecording(tabId)] follows the lifecycle: it is true exactly when
    some registered session of the tab is in state 'recording'; so it is
    true right after a start that went through, false after a start that
    failed on a tab with no other recording session, and false while the
    tab's only session is paused. *)
Theorem isRecording_follows_the_lifecycle :
  (∀ tab m,
     isRecording tab m = true
     ↔ ∃ sid s, activeSessions m !! sid = Some s
                ∧ tabId s = tab ∧ state s = recording)
  ∧ (∀ m options nowId nowStart init,
       initializeMediaRecorder init = inr () →
       isRecording (optTabId options)
         (startRecording options nowId nowStart init m).1 = true)
  ∧ (∀ m options nowId nowStart init e,
       initializeMediaRecorder init = inl e →
       isRecording (optTabId options) m = false →
       isRecording (optTabId options)
         (startRecording options nowId nowStart init m).1 = false)
  ∧ (∀ m sid session now,
       activeSessions m !! sid = Some session →
       state session = recording →
       (∀ k s, k ≠ sid → activeSessions m !! k = Some s →
               tabId s ≠ tabId session) →
       isRecording (tabId session) (pauseRecording sid now m).1 = false).
Proof.
  split; [apply isRecording_spec|]. split; [|split].
  - intros m options nowId nowStart init Hok.
    destruct (StartFacts.startRecording_acknowledged m options nowId nowStart
                init Hok) as (s & _ & Htab & Hstate & Hs).
    apply isRecording_spec. by exists (id s), s.
  - intros m options nowId nowStart init e He Hoff.
    apply not_true_is_false. intros (sid & s & Hs & Htab & Hstate)%isRecording_spec.
    destruct (StartFacts.startRecording_failed m options nowId nowStart init e
                He) as [_ Hreg].
    cbn zeta in Hreg. rewrite Hreg in Hs.
    apply lookup_delete_Some in Hs as [_ Hs].
    apply not_true_iff_false in Hoff. apply Hoff.
    apply isRecording_spec. by exists sid, s.
  - intros m sid session now Hs Hstate Hothers.
    apply not_true_is_false.
    intros (k & s & Hk & Htab & Hrec)%isRecording_spec.
    unfold pauseRecording in Hk. rewrite Hs, decide_True in Hk by done.
    cbn [fst send withSessions activeSessions] in Hk.
    destruct (decide (k = sid)) as [->|Hne].
    + rewrite lookup_insert_eq in Hk. injection Hk as <-. done.
    + rewrite lookup_insert_ne in Hk by done. by eapply Hothers.
Qed.

Lemma isRecording_witness :
  initializeMediaRecorder Scenario.ack = inr ()
  ∧ isRecording 7 Scenario.started = true
  ∧ isRecording 7 (pauseRecording Scenario.sid 5000 Scenario.started).1 = false.
Proof.
  split; [reflexivity|]. split.
  - exact (proj1 (proj2 isRecording_follows_the_lifecycle)
             RecordingManager.constructor Scenario.options 0 0 Scenario.ack
             eq_refl).
  - apply (proj2 (proj2 (proj2 isRecording_follows_the_lifecycle))
             Scenario.started Scenario.sid Scenario.session0 5000).
    + vm_compute; reflexivity.
    + reflexivity.
    + intros k s Hne Hk. exfalso. apply Hne.
      change (activeSessions Scenario.started)
        with (<[Scenario.sid := Scenario.session0]>
                (<[Scenario.sid :=
                     setState starting Scenario.session0]> (∅ : gmap string Session)))
        in Hk.
      destruct (decide (k = Scenario.sid)) as [->|Hne']; [done|].
      by rewrite !lookup_insert_ne, lookup_empty in Hk.
Defined.

End RegistryFacts.

(** * The stand-alone recorder: buffers, stop and deletion *)

Module RecorderExtras.
Import Data CursorFlowRecorder Props.

Lemma stopRecording_turns_recording_off late now w :
  isRecording (stopRecording late now w).1.1 = false.
Proof.
  destruct w as [r st]. unfold stopRecording.
  destruct (isRecording r) eqn:Hrec; cbn [negb]; [|by cbn].
  destruct (currentSession r) as [cs|]; [|done].
  destruct (recordedChunks (foldl _ r late)) as [|c chunks].
  - destruct (saveEmptyRecording now _ st) as [st1 [e|rid]]; [done|].
    destruct rid; [done|]. by destruct (openRecordingViewer _).
  - destruct (saveRecording now _ st) as [st1 [e|rid]]; [done|].
    destruct rid; [done|]. by destruct (openRecordingViewer _).
Qed.



(** X10. A start that goes through begins with empty buffers, and while a
    recording is on a second start changes nothing. [recordChunk] itself
    has no guard: a chunk that arrives while the recorder is idle is
    buffered all the same, and it is the next successful [startRecording]
    that discards it together with the old cursor events. *)
Theorem start_discards_stale_buffers :
  (∀ r s nowId nowStart tabs capture inject,
     isRecording r = true →
     startRecording s nowId nowStart tabs capture inject r
     = (r, StartFailed "Already recording"))
  ∧ (∀ r b, recordedChunks (recordChunk (DataBlob b) r)
            = recordedChunks r ++ [BlobChunk b])
  ∧ (∀ r s nowId nowStart tabs capture inject sid,
       (startRecording s nowId nowStart tabs capture inject r).2 = Started sid →
       let r' := (startRecording s nowId nowStart tabs capture inject r).1 in
       sid = "recording_" +:+ Js.num nowId
       ∧ isRecording r' = true
       ∧ currentSession r'
         = Some {| id := sid; startTime := nowStart; sessionSettings := s |}
       ∧ recordedChunks r' = []
       ∧ cursorEvents r' = []).
Proof.
  split; [|split].
  - intros r s nowId nowStart tabs capture inject Hrec.
    unfold startRecording. by rewrite Hrec.
  - done.
  - intros r s nowId nowStart tabs capture inject sid.
    unfold startRecording. destruct (isRecording r); [done|].
    destruct tabs as [?|[tab|]]; destruct capture as [?|[|c streamId]];
      destruct inject; cbn; try done.
    intros [= <-]. done.
Qed.

Lemma start_discards_witness :
  (startRecording Scenario.capture 50 51 (Tabs (Some 7))
     (CaptureStream "stream") Injected
     (recordChunk (DataBlob (Scenario.chunk 0)) constructor)).2
  = Started "recording_50"
  ∧ recordedChunks
      (startRecording Scenario.capture 50 51 (Tabs (Some 7))
         (CaptureStream "stream") Injected
         (recordChunk (DataBlob (Scenario.chunk 0)) constructor)).1 = [].
Proof.
  assert ((startRecording Scenario.capture 50 51 (Tabs (Some 7))
             (CaptureStream "stream") Injected
             (recordChunk (DataBlob (Scenario.chunk 0)) constructor)).2
          = Started "recording_50") as H by reflexivity.
  split; [exact H|].
  exact (proj1 (proj2 (proj2 (proj2
           (proj2 (proj2 start_discards_stale_buffers) _ _ _ _ _ _ _ _ H))))).
Defined.

(** X11. [deleteRecording] removes the record stored under
    [recording_<id>] and every entry of [recordings_list] with that id; the
    other entries keep their order and every other key keeps its value. *)
Theorem deleteRecording_removes_record_and_entries :
  ∀ rid st,
    Store.get ("recording_" +:+ rid) (deleteRecording rid st) = None
    ∧ getRecordings (deleteRecording rid st)
      = filter (λ r, rsId r ≠ rid) (getRecordings st)
    ∧ ∀ k, k ≠ "recording_" +:+ rid → k ≠ "recordings_list" →
           Store.get k (deleteRecording rid st) = Store.get k st.
Proof.
  intros rid st. unfold deleteRecording, getRecordings.
  assert ("recordings_list" ∉ ["recording_" +:+ rid]) as Hlist.
  { intros [H|H%elem_of_nil]%elem_of_cons; [|done].
    symmetry in H. by apply RecorderFacts.recording_key_ne in H. }
  split; [|split].
  - rewrite StoreFacts.get_set_ne.
    + apply StoreFacts.get_remove_in. by apply elem_of_cons; left.
    + intros H. exact (RecorderFacts.recording_key_ne _ (eq_sym H)).
  - rewrite StoreFacts.get_set_eq.
    by rewrite (StoreFacts.get_remove_notin _ _ _ Hlist).
  - intros k Hk1 Hk2. rewrite StoreFacts.get_set_ne by done.
    apply StoreFacts.get_remove_notin.
    intros [H|H%elem_of_nil]%elem_of_cons; done.
Qed.



(** X13. A stop cannot be repeated. However the first [stopRecording] ended,
    it leaves [isRecording] false, so a second one answers 'Not recording'
    and changes neither the recorder nor the storage. *)
Theorem second_stop_is_refused :
  ∀ late now w late' now',
    stopRecording late' now' (stopRecording late now w).1
    = ((stopRecording late now w).1, StopFailed "Not recording").
Proof.
  intros late now w late' now'.
  pose proof (stopRecording_turns_recording_off late now w) as Hoff.
  destruct (stopRecording late now w).1 as [r' st'] eqn:Hw.
  cbn [fst] in Hoff. unfold stopRecording at 1. by rewrite Hoff.
Qed.

End RecorderExtras.

(** * The content script's tracker: throttling and pausing *)

Module TrackerFacts.
Import Data CursorTracker Props.

Lemma sendCursorEvent_grows kind details now t :
  lastEventTime (sendCursorEvent kind details now t) = lastEventTime t
  ∧ (length (sentEvents t) ≤ length (sentEvents (sendCursorEvent kind details now t))
     ≤ S (length (sentEvents t)))%nat.
Proof.
  unfold sendCursorEvent.
  destruct (isTracking t); [|split; [done | lia]].
  destruct (sessionId t) as [[|a sid]|]; cbn; rewrite ?length_app; cbn;
    split; (done || lia).
Qed.

Lemma handleMouseMove_step details c s_ t :
  handleMouseMove details c s_ t
  = if decide (c - lastEventTime t < throttleDelay) then t
    else sendCursorEvent "mousemove" details s_
           {| isTracking := isTracking t; sessionId := sessionId t;
              mediaRecorder := mediaRecorder t; lastEventTime := c;
              sentEvents := sentEvents t |}.
Proof.
  unfold handleMouseMove, shouldRecordEvent. by destruct (decide _).
Qed.

Lemma moves_rate readings :
  ∀ t hi,
    (∀ r, r ∈ readings → r.1 ≤ hi) →
    throttleDelay
    * (Z.of_nat (length (sentEvents (moves readings t)))
       - Z.of_nat (length (sentEvents t)))
    ≤ Z.max 0 (hi - lastEventTime t).
Proof.
  induction readings as [|[c s_] readings IH]; intros t hi Hhi.
  - cbn. unfold throttleDelay. lia.
  - unfold moves in *. cbn [foldl fst snd].
    assert (c ≤ hi) as Hc by (apply (Hhi (c, s_)); by apply elem_of_cons; left).
    assert (∀ r, r ∈ readings → r.1 ≤ hi) as Hrest
      by (intros r Hr; apply Hhi; by apply elem_of_cons; right).
    rewrite handleMouseMove_step.
    destruct (decide (c - lastEventTime t < throttleDelay)) as [Hlt|Hge].
    + by apply IH.
    + destruct (sendCursorEvent_grows "mousemove" "" s_
                  {| isTracking := isTracking t; sessionId := sessionId t;
                     mediaRecorder := mediaRecorder t; lastEventTime := c;
                     sentEvents := sentEvents t |}) as [Hlast Hlen].
      specialize (IH (sendCursorEvent "mousemove" "" s_
                        {| isTracking := isTracking t;
                           sessionId := sessionId t;
                           mediaRecorder := mediaRecorder t;
                           lastEventTime := c;
                           sentEvents := sentEvents t |}) hi Hrest).
      rewrite Hlast in IH.
      cbn [lastEventTime sentEvents] in IH, Hlen.
      unfold throttleDelay in *. lia.
Qed.

(** X14. Mouse moves are rate limited. A mouse move whose throttle reading
    is less than 16 ms after the last accepted one is dropped without a
    trace; and over any run of mouse moves whose readings do not exceed
    [hi], the tracker sends at most [(hi - lastEventTime) / 16] events. *)
Theorem mouse_moves_are_rate_limited :
  (∀ t details c s_,
     c - lastEventTime t < throttleDelay →
     handleMouseMove details c s_ t = t)
  ∧ (∀ t readings hi,
       (∀ r, r ∈ readings → r.1 ≤ hi) →
       throttleDelay
       * (Z.of_nat (length (sentEvents (moves readings t)))
          - Z.of_nat (length (sentEvents t)))
       ≤ Z.max 0 (hi - lastEventTime t)).
Proof.
  split.
  - intros t details c s_ Hlt. unfold handleMouseMove, shouldRecordEvent.
    by rewrite decide_True.
  - intros t readings hi. apply moves_rate.
Qed.

Lemma mouse_moves_witness :
  (∀ r, r ∈ [(1000, 1000); (1005, 1005); (1020, 1020)] → r.1 ≤ 1020)
  ∧ throttleDelay
    * (Z.of_nat
         (length
            (sentEvents
               (moves [(1000, 1000); (1005, 1005); (1020, 1020)]
                  (startCursorTracking "s" constructor).1)))
       - Z.of_nat (length (sentEvents (startCursorTracking "s" constructor).1)))
    ≤ Z.max 0 (1020 - lastEventTime (startCursorTracking "s" constructor).1).
Proof.
  assert (∀ r : Z * Z,
            r ∈ [(1000, 1000); (1005, 1005); (1020, 1020)] → r.1 ≤ 1020) as H.
  { intros r Hr. repeat (apply elem_of_cons in Hr as [->|Hr]; [cbn; lia|]).
    by apply elem_of_nil in Hr. }
  split; [exact H|].
  exact (proj2 mouse_moves_are_rate_limited
           (startCursorTracking "s" constructor).1
           [(1000, 1000); (1005, 1005); (1020, 1020)] 1020 H).
Defined.

(** X15. While paused the tracker sends nothing, and a resume always turns
    tracking on. After [pauseRecording] neither a mouse-down nor a mouse
    move adds an event; after the following [resumeRecording] a mouse-down
    is sent again, stamped with the tracker's session id.
    [resumeRecording] sets [isTracking] even for a tracker that was not
    tracking before the pause, and a recorder that was capturing is
    capturing again. *)
Theorem tracker_is_silent_while_paused :
  (∀ t details now,
     handleMouseDown details now (pauseRecording t) = pauseRecording t)
  ∧ (∀ t details c s_,
       sentEvents (handleMouseMove details c s_ (pauseRecording t))
       = sentEvents t)
  ∧ (∀ t, isTracking (resumeRecording (pauseRecording t)) = true)
  ∧ (∀ t, mediaRecorder t = Some capturing →
          mediaRecorder (pauseRecording t) = Some held
          ∧ mediaRecorder (resumeRecording (pauseRecording t))
            = Some capturing)
  ∧ (∀ t sid details now,
       sessionId t = Some sid → sid ≠ "" →
       sentEvents
         (handleMouseDown details now (resumeRecording (pauseRecording t)))
       = sentEvents t
         ++ [{| Data.sessionId := sid; eventType := "mousedown";
                rawTimestamp := now; payload := details |}]).
Proof.
  split; [done|]. split; [|split; [done|split]].
  - intros t details c s_. unfold handleMouseMove, shouldRecordEvent.
    by destruct (decide _).
  - intros t Ht. cbn. by rewrite Ht.
  - intros t sid details now Hsid Hne.
    unfold handleMouseDown, sendCursorEvent. cbn. rewrite Hsid.
    by destruct sid.
Qed.

Lemma tracker_paused_witness :
  sessionId (startCursorTracking "s" constructor).1 = Some "s"
  ∧ length
      (sentEvents
         (handleMouseDown "" 5
            (resumeRecording
               (pauseRecording (startCursorTracking "s" constructor).1))))
    = 1%nat.
Proof.
  split; [reflexivity|].
  rewrite (proj2 (proj2 (proj2 (proj2 tracker_is_silent_while_paused)))
             (startCursorTracking "s" constructor).1 "s" "" 5 eq_refl);
    [reflexivity | discriminate].
Defined.

End TrackerFacts.

(** * The project manager: deletion, cleanup and round trips *)

Module ProjectExtras.
Import Data ProjectManager Props.

Lemma recent_key_ne_project pid : "project_" +:+ pid ≠ "recent_projects".
Proof. intros H. cbv [String.append] in H. discriminate H. Qed.

Lemma project_key_not_blob pid : Js.startsWith "blob_" ("project_" +:+ pid) = false.
Proof. reflexivity. Qed.

Lemma project_key_inj a b : "project_" +:+ a = "project_" +:+ b → a = b.
Proof. apply (inj (String.app "project_")). Qed.

Lemma deleteProjectBlobs_remove pid (st : Storage) :
  deleteProjectBlobs pid st = Store.remove (projectBlobKeys pid st) st.
Proof.
  unfold deleteProjectBlobs.
  destruct (projectBlobKeys pid st) eqn:H; [by rewrite StoreFacts.remove_nil|done].
Qed.

Lemma projectBlobKeys_spec pid (st : Storage) k :
  k ∈ projectBlobKeys pid st
  ↔ (Js.startsWith "blob_" k && Js.includes pid k) ∧ k ∈ Store.keys st.
Proof. unfold projectBlobKeys. by rewrite list_elem_of_filter. Qed.

Lemma get_deleteProjectBlobs pid (st : Storage) k :
  Store.get k (deleteProjectBlobs pid st)
  = if Js.startsWith "blob_" k && Js.includes pid k then None
    else Store.get k st.
Proof.
  rewrite deleteProjectBlobs_remove.
  destruct (Js.startsWith "blob_" k && Js.includes pid k) eqn:Hk.
  - destruct (decide (k ∈ Store.keys st)) as [Hin|Hnin].
    + apply StoreFacts.get_remove_in. apply projectBlobKeys_spec.
      by rewrite Hk.
    + apply StoreFacts.get_None_keys. rewrite StoreFacts.keys_remove.
      by intros [_ ?]%list_elem_of_filter.
  - apply StoreFacts.get_remove_notin.
    intros [Hk' _]%projectBlobKeys_spec. by rewrite Hk in Hk'.
Qed.

Lemma get_remove_one {V} k k' (st : list (string * V)) :
  Store.get k (Store.remove [k'] st)
  = if decide (k = k') then None else Store.get k st.
Proof.
  destruct (decide (k = k')) as [->|Hne].
  - apply StoreFacts.get_remove_in. by apply elem_of_cons; left.
  - apply StoreFacts.get_remove_notin.
    intros [?|?%elem_of_nil]%elem_of_cons; done.
Qed.

Lemma recentProjects_deleteProject pid st :
  recentProjects (deleteProject pid st)
  = filter (λ q, sumId q ≠ pid) (recentProjects st).
Proof.
  unfold deleteProject, removeFromRecentProjects, recentProjects at 1.
  rewrite StoreFacts.get_set_eq. f_equal. unfold recentProjects.
  rewrite get_deleteProjectBlobs. cbn [Js.startsWith andb].
  rewrite get_remove_one. rewrite decide_False; [done|].
  intros H. by apply (recent_key_ne_project pid).
Qed.

Lemma get_deleteProject pid st k :
  k ≠ "recent_projects" →
  Store.get k (deleteProject pid st)
  = if decide (k = "project_" +:+ pid) then None
    else if Js.startsWith "blob_" k && Js.includes pid k then None
    else Store.get k st.
Proof.
  intros Hk. unfold deleteProject, removeFromRecentProjects.
  rewrite StoreFacts.get_set_ne by done.
  rewrite get_deleteProjectBlobs, get_remove_one.
  destruct (decide (k = "project_" +:+ pid)) as [->|Hne]; [|done].
  by destruct (_ && _).
Qed.

(** X16. [deleteProject] removes the project record, every entry of
    [recent_projects] with that id, and every blob record whose key
    contains the project id anywhere in it (so also a blob of another
    project whose own id contains this one). The other recent entries keep
    their order and every other key keeps its value. *)
Theorem deleteProject_removes_record_entries_and_matching_blobs :
  ∀ pid st,
    Store.get ("project_" +:+ pid) (deleteProject pid st) = None
    ∧ recentProjects (deleteProject pid st)
      = filter (λ q, sumId q ≠ pid) (recentProjects st)
    ∧ (∀ k, Js.startsWith "blob_" k → Js.includes pid k →
            Store.get k (deleteProject pid st) = None)
    ∧ (∀ k, k ≠ "project_" +:+ pid → k ≠ "recent_projects" →
            Js.startsWith "blob_" k && Js.includes pid k = false →
            Store.get k (deleteProject pid st) = Store.get k st).
Proof.
  intros pid st. split; [|split; [|split]].
  - rewrite get_deleteProject by apply recent_key_ne_project.
    by rewrite decide_True.
  - apply recentProjects_deleteProject.
  - intros k Hblob Hinc.
    assert (k ≠ "recent_projects") as Hk
      by (intros ->; cbn in Hblob; done).
    rewrite get_deleteProject by done.
    destruct (decide _); [done|].
    apply Is_true_true in Hblob, Hinc. by rewrite Hblob, Hinc.
  - intros k Hk1 Hk2 Hk3. rewrite get_deleteProject by done.
    by rewrite decide_False, Hk3.
Qed.

Lemma deleteProject_witness :
  Js.startsWith "blob_" "blob_p1_0"
  ∧ Js.includes "p1" "blob_p1_0"
  ∧ Store.get "blob_p1_0" (deleteProject "p1" Scenario.importedStorage) = None.
Proof.
  assert (Is_true (Js.startsWith "blob_" "blob_p1_0")) as H1 by exact I.
  assert (Is_true (Js.includes "p1" "blob_p1_0")) as H2 by exact I.
  split; [exact H1|]. split; [exact H2|].
  exact (proj1 (proj2 (proj2
           (deleteProject_removes_record_entries_and_matching_blobs "p1"
              Scenario.importedStorage))) "blob_p1_0" H1 H2).
Defined.

Lemma insertBy_Permutation {A} (key : A → Z) x (l : list A) :
  Js.insertBy key x l ≡ₚ x :: l.
Proof.
  induction l as [|y l IH]; [done|]. cbn [Js.insertBy].
  destruct (decide (key y ≤ key x)); [|done].
  rewrite IH. apply Permutation_swap.
Qed.

Lemma sortBy_Permutation {A} (key : A → Z) (l : list A) : Js.sortBy key l ≡ₚ l.
Proof.
  unfold Js.sortBy.
  assert (∀ acc, foldl (λ acc x, Js.insertBy key x acc) acc l ≡ₚ acc ++ l) as H.
  { induction l as [|x l IH]; intros acc; cbn [foldl].
    - by rewrite app_nil_r.
    - rewrite IH, insertBy_Permutation. cbn. apply Permutation_middle. }
  apply H.
Qed.

Lemma insertBy_sorted {A} (key : A → Z) x (l : list A) :
  StronglySorted (λ a b, key a ≤ key b) l →
  StronglySorted (λ a b, key a ≤ key b) (Js.insertBy key x l).
Proof.
  induction 1 as [|y l Hl IH Hy]; cbn [Js.insertBy].
  - by repeat constructor.
  - destruct (decide (key y ≤ key x)) as [Hle|Hgt].
    + constructor; [done|]. rewrite insertBy_Permutation.
      by constructor.
    + constructor; [by constructor|]. constructor; [lia|].
      eapply Forall_impl; [exact Hy|]. intros z Hz. cbn in Hz. lia.
Qed.

Lemma sortBy_sorted {A} (key : A → Z) (l : list A) :
  StronglySorted (λ a b, key a ≤ key b) (Js.sortBy key l).
Proof.
  unfold Js.sortBy.
  assert (∀ acc, StronglySorted (λ a b, key a ≤ key b) acc →
                 StronglySorted (λ a b, key a ≤ key b)
                   (foldl (λ acc x, Js.insertBy key x acc) acc l)) as H.
  { induction l as [|x l IH]; intros acc Hacc; [done|].
    cbn [foldl]. by apply IH, insertBy_sorted. }
  apply H. constructor.
Qed.

Lemma StronglySorted_take_sub {A} (R : relation A) n (l : list A) :
  StronglySorted R l → StronglySorted R (take n l).
Proof.
  intros Hl. revert n. induction Hl as [|x l Hl IH Hx]; intros [|n];
    cbn [take]; try constructor; [apply IH|].
  apply Forall_forall. intros y Hy%subseteq_take.
  rewrite Forall_forall in Hx. by apply Hx.
Qed.

Lemma storedProjects_spec (st : Storage) p :
  p ∈ storedProjects st
  ↔ ∃ k, Js.startsWith "project_" k ∧ (k, VProject p) ∈ st ∧ projectId p ≠ "".
Proof.
  unfold storedProjects. rewrite list_elem_of_omap. split.
  - intros ([k v] & Hin & Hf). cbn [fst snd] in Hf.
    destruct (Js.startsWith "project_" k) eqn:Hk; [|done].
    destruct v as [q| | | | | | |]; try done.
    destruct (decide (projectId q = "")); [done|]. injection Hf as ->.
    exists k. by rewrite Hk.
  - intros (k & Hk & Hin & Hid). exists (k, VProject p). split; [done|].
    cbn [fst snd]. apply Is_true_true in Hk. rewrite Hk.
    by rewrite decide_False.
Qed.

(** X17. [getAllProjects] as [cleanupOldProjects] calls it returns at most
    50 projects, in ascending order of [updatedAt || 0], each of them a
    project with a non-empty id stored under a key that starts with
    [project_]; when at most 50 such projects are stored, it returns all of
    them. *)
Theorem getAllProjects_sorted_bounded_and_stored :
  ∀ st,
    (length (getAllProjects_asc st) ≤ 50)%nat
    ∧ StronglySorted
        (λ a b, Js.orZero (updatedAt a) ≤ Js.orZero (updatedAt b))
        (getAllProjects_asc st)
    ∧ (∀ p, p ∈ getAllProjects_asc st →
            ∃ k, Js.startsWith "project_" k ∧ (k, VProject p) ∈ st
                 ∧ projectId p ≠ "")
    ∧ ((length (storedProjects st) ≤ 50)%nat →
       getAllProjects_asc st ≡ₚ storedProjects st).
Proof.
  intros st. unfold getAllProjects_asc, Js.slice0. split; [|split; [|split]].
  - rewrite length_take. lia.
  - apply StronglySorted_take_sub, sortBy_sorted.
  - intros p Hp%subseteq_take. rewrite sortBy_Permutation in Hp.
    by apply storedProjects_spec.
  - intros Hlen. rewrite take_ge; [apply sortBy_Permutation|].
    by rewrite sortBy_Permutation.
Qed.

Lemma project_count_ceiling_never_applies_aux now st :
  Js.sliceFrom maxProjects (getAllProjects_asc st) = []
  ∧ projectsToDelete now st
    = filter (λ p, isOld now p = true) (getAllProjects_asc st).
Proof.
  assert (Js.sliceFrom maxProjects (getAllProjects_asc st) = []) as Hnone.
  { unfold Js.sliceFrom. apply drop_ge.
    unfold getAllProjects_asc, Js.slice0, maxProjects.
    rewrite length_take. lia. }
  split; [done|]. unfold projectsToDelete. by rewrite Hnone, app_nil_r.
Qed.

(** X18. The project-count ceiling never deletes anything.
    [cleanupOldProjects] takes its list from [getAllProjects], which returns
    at most 50 projects, and slices it from index 100 ([maxProjects]): that
    slice is always empty, so the projects it deletes are exactly the ones
    of that list whose age exceeds thirty days. *)
Theorem project_count_ceiling_never_applies :
  ∀ now st,
    Js.sliceFrom maxProjects (getAllProjects_asc st) = []
    ∧ projectsToDelete now st
      = filter (λ p, isOld now p = true) (getAllProjects_asc st).
Proof. intros now st. apply project_count_ceiling_never_applies_aux. Qed.

Lemma getAllProjects_witness :
  (length (storedProjects Scenario.persisted) ≤ 50)%nat
  ∧ getAllProjects_asc Scenario.persisted ≡ₚ storedProjects Scenario.persisted.
Proof.
  assert (length (storedProjects Scenario.persisted) ≤ 50)%nat as H
    by (vm_compute; lia).
  split; [exact H|].
  exact (proj2 (proj2 (proj2
           (getAllProjects_sorted_bounded_and_stored Scenario.persisted))) H).
Defined.

Lemma project_key_facts k :
  Js.startsWith "project_" k →
  k ≠ "recent_projects" ∧ Js.startsWith "blob_" k = false.
Proof.
  intros Hk. split.
  - by intros ->.
  - destruct (Js.startsWith "blob_" k) eqn:Hb; [|done].
    apply Is_true_true in Hb. apply EvictionFacts.blob_not_project in Hb.
    by rewrite Hb in Hk.
Qed.

Lemma get_deleteProjects_fold ps :
  ∀ st k,
    Js.startsWith "project_" k →
    Store.get k (foldl (λ acc p, deleteProject (projectId p) acc) st ps)
    = if decide (k ∈ (λ p, "project_" +:+ projectId p) <$> ps) then None
      else Store.get k st.
Proof.
  induction ps as [|p ps IH]; intros st k Hk; cbn [foldl].
  - rewrite decide_False; [done | apply not_elem_of_nil].
  - rewrite IH by done. destruct (project_key_facts k Hk) as [Hrecent Hblob].
    rewrite fmap_cons.
    destruct (decide (k ∈ (λ p, "project_" +:+ projectId p) <$> ps)) as [Hin|Hnin].
    + rewrite decide_True; [done | by apply elem_of_cons; right].
    + rewrite get_deleteProject by done. rewrite Hblob. cbn [andb].
      destruct (decide (k = "project_" +:+ projectId p)) as [->|Hne].
      * rewrite decide_True; [done | by apply elem_of_cons; left].
      * rewrite decide_False; [done|].
        by intros [?|?]%elem_of_cons.
Qed.

Lemma get_deleteProjects_fold_other ps :
  ∀ st k,
    k ≠ "recent_projects" →
    Js.startsWith "project_" k = false →
    Js.startsWith "blob_" k = false →
    Store.get k (foldl (λ acc p, deleteProject (projectId p) acc) st ps)
    = Store.get k st.
Proof.
  induction ps as [|p ps IH]; intros st k H1 H2 H3; cbn [foldl]; [done|].
  rewrite IH by done. rewrite get_deleteProject by done.
  rewrite H3. cbn [andb]. rewrite decide_False; [done|].
  intros ->. by rewrite project_key_not_blob in H3 || cbn in H2.
Qed.

Lemma filter_all {A} (P : A → Prop) `{!∀ x, Decision (P x)} (l : list A) :
  (∀ x, x ∈ l → P x) → filter P l = l.
Proof.
  intros Hall. induction l as [|x l IH]; [done|].
  rewrite filter_cons_True by (apply Hall; by apply elem_of_cons; left).
  rewrite IH; [done|]. intros y Hy. apply Hall. by apply elem_of_cons; right.
Qed.

Lemma recentProjects_deleteProjects_fold ps :
  ∀ st,
    recentProjects (foldl (λ acc p, deleteProject (projectId p) acc) st ps)
    = filter (λ q, sumId q ∉ projectId <$> ps) (recentProjects st).
Proof.
  induction ps as [|p ps IH]; intros st; cbn [foldl].
  - symmetry. apply filter_all. intros q _. apply not_elem_of_nil.
  - rewrite IH, recentProjects_deleteProject, list_filter_filter.
    apply list_filter_iff. intros q. rewrite fmap_cons, not_elem_of_cons.
    tauto.
Qed.

(** X19. [cleanupOldProjects] deletes what it selected and nothing else of
    the projects: afterwards no selected project has a record, every other
    [project_] key keeps its value, [recent_projects] keeps exactly the
    entries of unselected ids, in order, and keys that are neither project,
    blob nor recent-list keys keep their values. *)
Theorem cleanupOldProjects_deletes_exactly_the_selected :
  ∀ now st,
    (∀ p, p ∈ projectsToDelete now st →
          Store.get ("project_" +:+ projectId p) (cleanupOldProjects now st)
          = None)
    ∧ (∀ k, Js.startsWith "project_" k →
            (∀ p, p ∈ projectsToDelete now st →
                  k ≠ "project_" +:+ projectId p) →
            Store.get k (cleanupOldProjects now st) = Store.get k st)
    ∧ recentProjects (cleanupOldProjects now st)
      = filter (λ q, sumId q ∉ projectId <$> projectsToDelete now st)
          (recentProjects st)
    ∧ (∀ k, k ≠ "recent_projects" →
            Js.startsWith "project_" k = false →
            Js.startsWith "blob_" k = false →
            Store.get k (cleanupOldProjects now st) = Store.get k st).
Proof.
  intros now st. unfold cleanupOldProjects. split; [|split; [|split]].
  - intros p Hp. rewrite get_deleteProjects_fold by done.
    rewrite decide_True; [done|].
    apply list_elem_of_fmap. by exists p.
  - intros k Hk Hne. rewrite get_deleteProjects_fold by done.
    rewrite decide_False; [done|].
    intros (p & -> & Hp)%list_elem_of_fmap. by apply (Hne p).
  - apply recentProjects_deleteProjects_fold.
  - intros k H1 H2 H3. by apply get_deleteProjects_fold_other.
Qed.

Lemma cleanupOldProjects_witness :
  Scenario.imported ∈ projectsToDelete Scenario.muchLater Scenario.importedStorage
  ∧ Store.get "project_p1"
      (cleanupOldProjects Scenario.muchLater Scenario.importedStorage) = None.
Proof.
  assert (Scenario.imported
          ∈ projectsToDelete Scenario.muchLater Scenario.importedStorage) as H.
  { vm_compute. apply elem_of_cons; by left. }
  split; [exact H|].
  exact (proj1 (cleanupOldProjects_deletes_exactly_the_selected
                  Scenario.muchLater Scenario.importedStorage)
           Scenario.imported H).
Defined.

Lemma storedProjects_set_other k v (st : Storage) :
  Js.startsWith "project_" k = false →
  storedProjects (Store.set k v st) = storedProjects st.
Proof.
  intros Hk. unfold storedProjects. apply EvictionFacts.omap_set_None.
  intros v'. cbn [fst]. by rewrite Hk.
Qed.

Lemma omap_set_length {B} (f : string * Value → option B) k v (st : Storage) :
  (length (omap f (Store.set k v st)) ≤ S (length (omap f st)))%nat.
Proof.
  induction st as [|[k0 v0] st IH]; cbn [Store.set]; csimpl.
  - destruct (f (k, v)); cbn; lia.
  - destruct (decide (k0 = k)) as [->|Hne]; csimpl.
    + destruct (f (k, v)), (f (k, v0)); cbn; lia.
    + destruct (f (k0, v0)); cbn; lia.
Qed.

Lemma omap_set_elem {B} (f : string * Value → option B) k v y (st : Storage) :
  f (k, v) = Some y → y ∈ omap f (Store.set k v st).
Proof.
  intros Hf. induction st as [|[k0 v0] st IH]; cbn [Store.set]; csimpl.
  - rewrite Hf. by apply elem_of_cons; left.
  - destruct (decide (k0 = k)) as [->|Hne]; csimpl.
    + rewrite Hf. by apply elem_of_cons; left.
    + destruct (f (k0, v0)); [apply elem_of_cons; by right | done].
Qed.

Lemma saveProject_steps p nowSaved nowCleanup st :
  projectId p ≠ "" →
  saveProject p nowSaved nowCleanup st
  = (cleanupOldProjects nowCleanup
       (updateRecentProjects p
          (Store.set ("project_" +:+ projectId p)
             (VProject (setSavedAt nowSaved p)) st)),
     inr (projectId p)).
Proof. intros Hid. unfold saveProject. by rewrite decide_False. Qed.

(** X20. Save then load gives the project back. [saveProject] refuses a
    project without an id ('Invalid project data', nothing written). For a
    project with an id that its own cleanup pass does not select, the
    project is then stored with [savedAt] set, [loadProject] returns it
    with [lastAccessed] set and every other field as it was saved, and its
    summary is the first entry of [recent_projects]. *)
Theorem saveProject_then_loadProject :
  ∀ p nowSaved nowCleanup nowLoad st,
    (projectId p = "" →
     saveProject p nowSaved nowCleanup st = (st, inl "Invalid project data"))
    ∧ (projectId p ≠ "" →
       (∀ q, q ∈ projectsToDelete nowCleanup
                   (updateRecentProjects p
                      (Store.set ("project_" +:+ projectId p)
                         (VProject (setSavedAt nowSaved p)) st)) →
             projectId q ≠ projectId p) →
       let saved := saveProject p nowSaved nowCleanup st in
       saved.2 = inr (projectId p)
       ∧ (loadProject (projectId p) nowLoad saved.1).2
         = inr (setLastAccessed nowLoad (setSavedAt nowSaved p))
       ∧ head (recentProjects saved.1) = Some (summary p)).
Proof.
  intros p nowSaved nowCleanup nowLoad st. split.
  - intros Hid. unfold saveProject. by rewrite decide_True.
  - intros Hid Hkeep saved. subst saved. rewrite saveProject_steps by done.
    cbn [fst snd]. split; [done|].
    set (st1 := Store.set ("project_" +:+ projectId p)
                  (VProject (setSavedAt nowSaved p)) st) in *.
    set (st2 := updateRecentProjects p st1) in *.
    split.
    + unfold loadProject, cleanupOldProjects.
      rewrite get_deleteProjects_fold by done.
      rewrite decide_False.
      * unfold st2, updateRecentProjects.
        rewrite StoreFacts.get_set_ne
          by (intros H; by apply (recent_key_ne_project (projectId p))).
        unfold st1. by rewrite StoreFacts.get_set_eq.
      * intros (q & Hq%project_key_inj & Hin)%list_elem_of_fmap.
        by apply (Hkeep q Hin).
    + unfold cleanupOldProjects. rewrite recentProjects_deleteProjects_fold.
      assert (recentProjects st2
              = take 20 (summary p
                         :: filter (λ q, sumId q ≠ projectId p)
                              (recentProjects st1))) as ->
        by apply ProjectFacts.updateRecentProjects_recentProjects.
      cbn [take]. rewrite filter_cons_True; [done|]. cbn [sumId summary].
      intros (q & Hq & Hin)%list_elem_of_fmap. by apply (Hkeep q Hin).
Qed.

Lemma saveProject_witness :
  projectId Scenario.imported ≠ ""
  ∧ (saveProject Scenario.imported 5 6 [] ).2 = inr "p1"
  ∧ (loadProject "p1" 7 (saveProject Scenario.imported 5 6 []).1).2
    = inr (setLastAccessed 7 (setSavedAt 5 Scenario.imported)).
Proof.
  assert (projectId Scenario.imported ≠ "") as H by discriminate.
  split; [exact H|].
  destruct (proj2 (saveProject_then_loadProject Scenario.imported 5 6 7 []) H)
    as (H1 & H2 & _).
  { intros q Hq. vm_compute in Hq. by apply elem_of_nil in Hq. }
  split; [exact H1 | exact H2].
Defined.

Lemma isOld_setSavedAt now nowSaved p :
  isOld now (setSavedAt nowSaved p) = isOld now p.
Proof. reflexivity. Qed.

(** X21. A project saved with an old date is deleted by its own save. When
    fewer than 50 projects are stored and the project's
    [updatedAt || createdAt] lies more than thirty days before the clock
    reading of the cleanup pass, [saveProject] still resolves to success,
    but the cleanup pass it ends with has already removed the record and
    the recent-list entry it had just written. *)
Theorem saveProject_deletes_old_project_at_once :
  ∀ p nowSaved nowCleanup st,
    projectId p ≠ "" →
    (length (storedProjects st) < 50)%nat →
    isOld nowCleanup p = true →
    let saved := saveProject p nowSaved nowCleanup st in
    saved.2 = inr (projectId p)
    ∧ Store.get ("project_" +:+ projectId p) saved.1 = None
    ∧ ∀ q, q ∈ recentProjects saved.1 → sumId q ≠ projectId p.
Proof.
  intros p nowSaved nowCleanup st Hid Hfew Hold saved. subst saved.
  rewrite saveProject_steps by done. cbn [fst snd]. split; [done|].
  set (st1 := Store.set ("project_" +:+ projectId p)
                (VProject (setSavedAt nowSaved p)) st).
  set (st2 := updateRecentProjects p st1).
  assert (setSavedAt nowSaved p ∈ projectsToDelete nowCleanup st2) as Hsel.
  { rewrite (proj2 (project_count_ceiling_never_applies_aux nowCleanup st2)).
    apply list_elem_of_filter. split; [by rewrite isOld_setSavedAt|].
    assert (storedProjects st2 = storedProjects st1) as Hsame
      by (by apply storedProjects_set_other).
    unfold getAllProjects_asc, Js.slice0. rewrite take_ge.
    - rewrite sortBy_Permutation, Hsame. unfold storedProjects, st1.
      apply omap_set_elem. cbn [fst snd]. by rewrite decide_False.
    - rewrite sortBy_Permutation, Hsame. unfold storedProjects, st1.
      pose proof (omap_set_length
                    (λ e : string * Value,
                       if Js.startsWith "project_" e.1 then
                         match e.2 with
                         | VProject p => if decide (projectId p = "")
                                         then None else Some p
                         | _ => None
                         end
                       else None)
                    ("project_" +:+ projectId p)
                    (VProject (setSavedAt nowSaved p)) st) as Hlen.
      unfold storedProjects in Hfew. lia. }
  split.
  - unfold cleanupOldProjects. rewrite get_deleteProjects_fold by done.
    rewrite decide_True; [done|]. apply list_elem_of_fmap.
    by exists (setSavedAt nowSaved p).
  - intros q. unfold cleanupOldProjects.
    rewrite recentProjects_deleteProjects_fold.
    intros [Hq _]%list_elem_of_filter Heq. apply Hq. rewrite Heq.
    apply list_elem_of_fmap. by exists (setSavedAt nowSaved p).
Qed.

Lemma saveProject_old_witness :
  projectId Scenario.imported ≠ ""
  ∧ (length (storedProjects []) < 50)%nat
  ∧ isOld Scenario.muchLater Scenario.imported = true
  ∧ (saveProject Scenario.imported 5 Scenario.muchLater []).2 = inr "p1"
  ∧ Store.get "project_p1"
      (saveProject Scenario.imported 5 Scenario.muchLater []).1 = None.
Proof.
  assert (projectId Scenario.imported ≠ "") as H1 by discriminate.
  assert (length (storedProjects []) < 50)%nat as H2 by (cbn; lia).
  assert (isOld Scenario.muchLater Scenario.imported = true) as H3
    by reflexivity.
  split; [exact H1|]. split; [exact H2|]. split; [exact H3|].
  destruct (saveProject_deletes_old_project_at_once Scenario.imported 5
              Scenario.muchLater [] H1 H2 H3) as (Ha & Hb & _).
  split; [exact Ha | exact Hb].
Defined.

(** X22. [recent_projects] holds one entry per project, and saving again is
    harmless: after [updateRecentProjects] no entry behind the first one has
    the saved project's id, and running it a second time with the same
    project leaves the list as it is. *)
Theorem updateRecentProjects_keeps_one_entry_per_project :
  ∀ p st,
    (∀ q, q ∈ tail (recentProjects (updateRecentProjects p st)) →
          sumId q ≠ projectId p)
    ∧ recentProjects (updateRecentProjects p (updateRecentProjects p st))
      = recentProjects (updateRecentProjects p st).
Proof.
  intros p st. rewrite !ProjectFacts.updateRecentProjects_recentProjects.
  cbn [take tail]. split.
  - intros q Hq%subseteq_take. by apply list_elem_of_filter in Hq as [? _].
  - f_equal. rewrite filter_cons_False by (cbn; intros H; by apply H).
    rewrite filter_all.
    + rewrite take_take. by rewrite Nat.min_id.
    + intros q Hq%subseteq_take. by apply list_elem_of_filter in Hq as [? _].
Qed.

(** X23. An import that is refused has still written. [importProject]
    rejects data without a project or without a project id and writes
    nothing. Without [overwriteExisting], importing a project whose id is
    already stored throws 'Project already exists...', but the existence
    check is a [loadProject], so the stored project's [lastAccessed] has
    been set to the clock reading; no imported blob and no imported field
    is written. *)
Theorem importProject_refusal_touches_lastAccessed :
  ∀ data nowLoad nowImported nowSaved nowCleanup st,
    (match importedProject data with
     | Some project => projectId project = ""
     | None => True
     end →
     ∀ overwriteExisting,
       importProject data overwriteExisting nowLoad nowImported nowSaved
         nowCleanup st
       = (st, inl "Invalid project import data"))
    ∧ (∀ project existing,
         importedProject data = Some project →
         projectId project ≠ "" →
         Store.get ("project_" +:+ projectId project) st
         = Some (VProject existing) →
         importProject data false nowLoad nowImported nowSaved nowCleanup st
         = (Store.set ("project_" +:+ projectId project)
              (VProject (setLastAccessed nowLoad existing)) st,
            inl "Project already exists. Use overwriteExisting option to replace.")).
Proof.
  intros data nowLoad nowImported nowSaved nowCleanup st. split.
  - intros Hbad overwriteExisting. unfold importProject.
    destruct (importedProject data) as [project|]; [|done].
    by rewrite decide_True.
  - intros project existing Hp Hid Hget. unfold importProject.
    rewrite Hp, decide_False by done. unfold loadProject. by rewrite Hget.
Qed.

Lemma importProject_witness :
  Store.get ("project_" +:+ projectId Scenario.imported)
    Scenario.importedStorage = Some (VProject Scenario.imported)
  ∧ (importProject
       {| importedProject := Some Scenario.imported; importedBlobs := [] |}
       false 9 10 11 12 Scenario.importedStorage).2
    = inl "Project already exists. Use overwriteExisting option to replace."
  ∧ Store.get "project_p1"
      (importProject
         {| importedProject := Some Scenario.imported; importedBlobs := [] |}
         false 9 10 11 12 Scenario.importedStorage).1
    = Some (VProject (setLastAccessed 9 Scenario.imported)).
Proof.
  assert (Store.get ("project_" +:+ projectId Scenario.imported)
            Scenario.importedStorage = Some (VProject Scenario.imported)) as H
    by reflexivity.
  split; [exact H|].
  rewrite (proj2 (importProject_refusal_touches_lastAccessed
                    {| importedProject := Some Scenario.imported;
                       importedBlobs := [] |} 9 10 11 12
                    Scenario.importedStorage)
             Scenario.imported Scenario.imported eq_refl
             ltac:(discriminate) H).
  split; reflexivity.
Defined.

Lemma startsWith_dropChars p s :
  Js.startsWith p s → p +:+ Js.dropChars (String.length p) s = s.
Proof.
  revert s. induction p as [|a p IH]; intros s; [done|].
  destruct s as [|b s]; [done|]. cbn [Js.startsWith].
  destruct (decide (a = b)) as [->|]; [|done].
  intros Hs. cbn [String.length Js.dropChars]. cbv [String.append].
  fold String.append. f_equal. by apply IH.
Qed.

Lemma blob_key_restored k :
  Js.startsWith "blob_" k → "blob_" +:+ Js.replace "blob_" "" k = k.
Proof.
  intros Hk. pose proof (startsWith_dropChars "blob_" k Hk) as Hdrop.
  destruct k as [|a k]; [done|]. unfold Js.replace.
  apply Is_true_true in Hk. rewrite Hk. exact Hdrop.
Qed.

(** X24. [getProjectBlobs] hands out the blob records whose key contains the
    project id, each under its key without the [blob_] prefix: putting
    [blob_] back in front of a returned id gives the key the record is
    stored under (which is how [importProject] writes it back), and every
    stored blob record whose key contains the id is returned. *)
Theorem getProjectBlobs_ids_restore_the_keys :
  ∀ pid st,
    (∀ blobId b,
       (blobId, b) ∈ getProjectBlobs pid st →
       ("blob_" +:+ blobId, VBlob b) ∈ st
       ∧ Js.includes pid ("blob_" +:+ blobId))
    ∧ (∀ k b,
         (k, VBlob b) ∈ st → Js.startsWith "blob_" k → Js.includes pid k →
         (Js.replace "blob_" "" k, b) ∈ getProjectBlobs pid st).
Proof.
  intros pid st. unfold getProjectBlobs. split.
  - intros blobId b ([k v] & Hin & Hf)%list_elem_of_omap.
    cbn [fst snd] in Hf.
    destruct (Js.startsWith "blob_" k) eqn:Hk; [|done].
    destruct (Js.includes pid k) eqn:Hinc; [|done]. cbn [andb] in Hf.
    destruct v as [|b'| | | | | |]; try done. injection Hf as <- <-.
    rewrite blob_key_restored by (by rewrite Hk). by rewrite Hinc.
  - intros k b Hin Hk Hinc. apply list_elem_of_omap.
    exists (k, VBlob b). split; [done|]. cbn [fst snd].
    apply Is_true_true in Hk, Hinc. by rewrite Hk, Hinc.
Qed.

Lemma getProjectBlobs_witness :
  ("p1_0", {| recData := "chunk0"; recType := "video/webm"; recSize := 10;
              recCreatedAt := Some 1 |})
  ∈ getProjectBlobs "p1" Scenario.importedStorage
  ∧ ("blob_" +:+ "p1_0",
     VBlob {| recData := "chunk0"; recType := "video/webm"; recSize := 10;
              recCreatedAt := Some 1 |}) ∈ Scenario.importedStorage.
Proof.
  assert (("p1_0", {| recData := "chunk0"; recType := "video/webm";
                      recSize := 10; recCreatedAt := Some 1 |})
          ∈ getProjectBlobs "p1" Scenario.importedStorage) as H.
  { vm_compute. apply elem_of_cons; by left. }
  split; [exact H|].
  exact (proj1 (proj1 (getProjectBlobs_ids_restore_the_keys "p1"
                         Scenario.importedStorage) _ _ H)).
Defined.

End ProjectExtras.

(** * The storage manager: what cleanup and import do to each key *)

Module EvictionExtras.
Import Data StorageManager Props.

Lemma removed_keys_prefix nowAt usage (st : Storage) k :
  k ∈ removedKeys nowAt usage st →
  Js.startsWith "temp_" k || Js.startsWith "cache_" k || Js.startsWith "blob_" k.
Proof.
  unfold removedKeys. rewrite !elem_of_app. intros [Hk|[Hk|Hk]].
  - apply list_elem_of_filter in Hk as [Hk _].
    destruct (Js.startsWith "temp_" k || Js.startsWith "cache_" k); done.
  - apply EvictionFacts.orphanedBlobs_spec in Hk as [_ Hk].
    apply EvictionFacts.blobKeys_prefix in Hk as [Hk _].
    apply Is_true_true in Hk. rewrite Hk. by rewrite !orb_true_r.
  - apply EvictionFacts.blobsToRemove_subset in Hk. unfold oldBlobs in Hk.
    apply EvictionFacts.classify_old_subset in Hk.
    apply EvictionFacts.blobKeys_prefix in Hk as [Hk _].
    apply Is_true_true in Hk. rewrite Hk. by rewrite !orb_true_r.
Qed.

Lemma get_remove_dec {V} k ks (st : list (string * V)) :
  Store.get k (Store.remove ks st)
  = if decide (k ∈ ks) then None else Store.get k st.
Proof.
  destruct (decide (k ∈ ks)).
  - by apply StoreFacts.get_remove_in.
  - by apply StoreFacts.get_remove_notin.
Qed.

Lemma get_cleanupStorage nowAt usage nowStats (st : Storage) k :
  k ≠ "cleanup_stats" →
  Store.get k (cleanupStorage nowAt usage nowStats st)
  = if decide (k ∈ removedKeys nowAt usage st) then None else Store.get k st.
Proof.
  intros Hk. unfold cleanupStorage, updateCleanupStats, removedKeys.
  rewrite StoreFacts.get_set_ne by done. rewrite !get_remove_dec.
  repeat destruct (decide _); try done; exfalso;
    repeat match goal with
           | H : _ ∈ _ ++ _ |- _ => apply elem_of_app in H as [H|H]
           | H : _ ∉ _ ++ _ |- _ =>
               apply not_elem_of_app in H as [? ?]
           end; done.
Qed.

(** X25. One run of [cleanupStorage], key by key: every key it lists for
    removal is gone, every other key except [cleanup_stats] keeps its value,
    and in particular no key outside the [temp_], [cache_] and [blob_]
    prefixes (projects, recordings, settings, recent lists) is ever removed.
    [cleanup_stats] afterwards counts one more cleanup and as many more
    freed items as keys were listed for removal. *)
Theorem cleanupStorage_key_by_key :
  ∀ nowAt usage nowStats st,
    let st' := cleanupStorage nowAt usage nowStats st in
    (∀ k, k ∈ removedKeys nowAt usage st → Store.get k st' = None)
    ∧ (∀ k, k ∉ removedKeys nowAt usage st → k ≠ "cleanup_stats" →
            Store.get k st' = Store.get k st)
    ∧ (∀ k, Js.startsWith "temp_" k || Js.startsWith "cache_" k
            || Js.startsWith "blob_" k = false →
            k ≠ "cleanup_stats" → Store.get k st' = Store.get k st)
    ∧ cleanupStats st'
      = {| totalCleanups := totalCleanups (cleanupStats st) + 1;
           totalItemsFreed :=
             totalItemsFreed (cleanupStats st)
             + Z.of_nat (length (removedKeys nowAt usage st));
           lastCleanup := Some nowStats |}.
Proof.
  intros nowAt usage nowStats st st'. subst st'.
  assert ("cleanup_stats" ∉ removedKeys nowAt usage st) as Hstats.
  { intros H%removed_keys_prefix. done. }
  split; [|split; [|split]].
  - intros k Hk. rewrite get_cleanupStorage by (by intros ->).
    by rewrite decide_True.
  - intros k Hk Hne. rewrite get_cleanupStorage by done.
    by rewrite decide_False.
  - intros k Hk Hne. rewrite get_cleanupStorage by done.
    rewrite decide_False; [done|].
    intros H%removed_keys_prefix. by rewrite Hk in H.
  - unfold cleanupStats at 1. unfold cleanupStorage, updateCleanupStats.
    rewrite StoreFacts.get_set_eq. unfold removedKeys in *.
    rewrite !not_elem_of_app in Hstats. destruct Hstats as (H1 & H2 & H3).
    rewrite !StoreFacts.get_remove_notin by done.
    unfold cleanupStats. rewrite !length_app. do 2 f_equal. lia.
Qed.

Lemma cleanupStorage_key_witness :
  "blob_p1_0" ∈ removedKeys (λ _, Scenario.muchLater) (Some 90)
                  Scenario.importedStorage
  ∧ Store.get "blob_p1_0"
      (cleanupStorage (λ _, Scenario.muchLater) (Some 90) 5
         Scenario.importedStorage) = None.
Proof.
  assert ("blob_p1_0" ∈ removedKeys (λ _, Scenario.muchLater) (Some 90)
                          Scenario.importedStorage) as H.
  { vm_compute. apply elem_of_cons; by left. }
  split; [exact H|].
  exact (proj1 (cleanupStorage_key_by_key (λ _, Scenario.muchLater) (Some 90)
                  5 Scenario.importedStorage) _ H).
Defined.

(** X26. [clearTemporaryData] removes the keys that start with [temp_] and
    only those: afterwards such a key holds nothing, and every other key,
    the [cache_] keys included, keeps its value. *)
Theorem clearTemporaryData_removes_only_temp_keys :
  ∀ st k,
    Store.get k (clearTemporaryData st)
    = if Js.startsWith "temp_" k then None else Store.get k st.
Proof.
  intros st k. unfold clearTemporaryData.
  set (tempKeys := filter (λ k, Is_true (Js.startsWith "temp_" k))
                     (Store.keys st)).
  assert (Store.get k (Store.remove tempKeys st)
          = if Js.startsWith "temp_" k then None else Store.get k st) as H.
  { rewrite get_remove_dec. destruct (Js.startsWith "temp_" k) eqn:Hk.
    - destruct (decide (k ∈ tempKeys)) as [?|Hnin]; [done|].
      apply StoreFacts.get_None_keys. intros Hin. apply Hnin.
      apply list_elem_of_filter. by rewrite Hk.
    - rewrite decide_False; [done|].
      intros [Hk' _]%list_elem_of_filter. by rewrite Hk in Hk'. }
  destruct tempKeys eqn:Ht; [|done].
  by rewrite StoreFacts.remove_nil in H.
Qed.

Lemma keys_set_NoDup {V} k (v : V) (st : list (string * V)) :
  NoDup (Store.keys st) → NoDup (Store.keys (Store.set k v st)).
Proof.
  unfold Store.keys. induction st as [|[k0 v0] st IH]; cbn [Store.set].
  - intros _. apply NoDup_singleton.
  - rewrite fmap_cons. cbn [fst]. intros [Hk0 Hst]%NoDup_cons.
    destruct (decide (k0 = k)) as [->|Hne]; rewrite fmap_cons; cbn [fst].
    + by apply NoDup_cons.
    + apply NoDup_cons. split; [|by apply IH].
      intros Hin. apply (StoreFacts.keys_set k v st) in Hin.
      apply elem_of_cons in Hin as [?|?]; done.
Qed.

Lemma setData_NoDup (data st : Storage) :
  NoDup (Store.keys st) → NoDup (Store.keys (setData data st)).
Proof.
  revert st. induction data as [|[k v] data IH]; intros st Hst; [done|].
  unfold setData in *. cbn [foldl fst snd]. by apply IH, keys_set_NoDup.
Qed.

Lemma get_setData (data : Storage) :
  ∀ st k,
    NoDup (Store.keys data) →
    Store.get k (setData data st)
    = match Store.get k data with
      | Some v => Some v
      | None => Store.get k st
      end.
Proof.
  induction data as [|[k0 v0] data IH]; intros st k Hdata; [done|].
  unfold Store.keys in Hdata. rewrite fmap_cons in Hdata. cbn [fst] in Hdata.
  apply NoDup_cons in Hdata as [Hk0 Hdata].
  unfold setData in *. cbn [foldl fst snd Store.get].
  rewrite IH by done. destruct (decide (k0 = k)) as [->|Hne].
  - apply StoreFacts.get_None_keys in Hk0. rewrite Hk0.
    apply StoreFacts.get_set_eq.
  - by rewrite StoreFacts.get_set_ne.
Qed.

Lemma get_filter_key (P : string → Prop) `{!∀ k, Decision (P k)}
    (st : Storage) k :
  Store.get k (filter (λ e : string * Value, P e.1) st)
  = if decide (P k) then Store.get k st else None.
Proof.
  unfold Storage in *.
  induction st as [|[k0 v0] st IH]; [by destruct (decide _)|].
  destruct (decide (P k0)) as [Hk0|Hk0].
  - rewrite filter_cons_True by done. cbn [Store.get].
    destruct (decide (k0 = k)) as [->|Hne]; [by rewrite decide_True|done].
  - rewrite filter_cons_False by done. cbn [Store.get].
    rewrite IH. destruct (decide (k0 = k)) as [->|Hne]; [|done].
    by destruct (decide (P k)).
Qed.

Lemma keys_filter_NoDup (P : string * Value → Prop) `{!∀ e, Decision (P e)}
    (st : Storage) :
  NoDup (Store.keys st) → NoDup (Store.keys (filter P st)).
Proof.
  unfold Store.keys, Storage in *. induction st as [|[k0 v0] st IH]; [done|].
  rewrite fmap_cons. cbn [fst]. intros [Hk0 Hst]%NoDup_cons.
  destruct (decide (P (k0, v0))).
  2:{ rewrite filter_cons_False by done. by apply IH. }
  rewrite filter_cons_True by done.
  rewrite fmap_cons. cbn [fst]. apply NoDup_cons. split; [|by apply IH].
  intros (e & He & [_ Hin]%list_elem_of_filter)%list_elem_of_fmap.
  apply Hk0. apply list_elem_of_fmap. by exists e.
Qed.

(** X27. Importing a backup, key by key (storage and backup each hold a key
    at most once). Data without a [data] member is refused and nothing is
    written. In merge mode (no [overwrite]) a key of the backup takes the
    backup's value, also when the storage already had that key, and a key
    the backup lacks keeps its value. With [overwrite] alone the storage
    holds exactly the backup. With [overwrite] and [skipBlobs] every stored
    blob record survives, even against a backup entry of the same key;
    every other key holds what the backup holds, so stored keys that are
    neither blobs nor in the backup are gone. *)
Theorem importAllData_key_by_key :
  ∀ data st k,
    NoDup (Store.keys st) →
    NoDup (Store.keys data) →
    (∀ overwrite skipBlobs,
       importAllData None overwrite skipBlobs st
       = (st, inl "Invalid backup data format"))
    ∧ (∀ skipBlobs,
         Store.get k (importAllData (Some data) false skipBlobs st).1
         = match Store.get k data with
           | Some v => Some v
           | None => Store.get k st
           end)
    ∧ Store.get k (importAllData (Some data) true false st).1
      = Store.get k data
    ∧ Store.get k (importAllData (Some data) true true st).1
      = if Js.startsWith "blob_" k then
          match Store.get k st with
          | Some v => Some v
          | None => Store.get k data
          end
        else Store.get k data.
Proof.
  intros data st k Hst Hdata. unfold importAllData. cbn [negb fst].
  split; [done|]. split; [|split].
  - intros _. rewrite get_setData by (by apply setData_NoDup).
    rewrite get_setData by done.
    destruct (Store.get k data); [done|]. by destruct (Store.get k st).
  - rewrite get_setData by done. by destruct (Store.get k data).
  - rewrite get_setData.
    2:{ apply setData_NoDup, setData_NoDup. apply NoDup_nil_2. }
    rewrite get_setData by (by apply keys_filter_NoDup).
    pose proof (get_filter_key (λ k, Is_true (Js.startsWith "blob_" k)) st k)
      as Hblob.
    cbv beta in Hblob. rewrite Hblob. clear Hblob.
    rewrite get_setData by done.
    destruct (Js.startsWith "blob_" k) eqn:Hk.
    + rewrite decide_True by exact I.
      destruct (Store.get k st); [done|]. by destruct (Store.get k data).
    + rewrite decide_False by (intros []). by destruct (Store.get k data).
Qed.

Lemma importAllData_witness :
  NoDup (Store.keys Scenario.importedStorage)
  ∧ NoDup (Store.keys [("blob_p1_0", VNumber 0); ("fresh", VNumber 1)])
  ∧ Store.get "blob_p1_0"
      (importAllData (Some [("blob_p1_0", VNumber 0); ("fresh", VNumber 1)])
         false false Scenario.importedStorage).1 = Some (VNumber 0)
  ∧ Store.get "project_p1"
      (importAllData (Some [("blob_p1_0", VNumber 0); ("fresh", VNumber 1)])
         true true Scenario.importedStorage).1 = None.
Proof.
  assert (NoDup (Store.keys Scenario.importedStorage)) as H1.
  { apply (bool_decide_unpack _). vm_compute. exact I. }
  assert (NoDup (Store.keys [("blob_p1_0", VNumber 0); ("fresh", VNumber 1)]))
    as H2.
  { apply (bool_decide_unpack _). vm_compute. exact I. }
  split; [exact H1|]. split; [exact H2|]. split.
  - exact (proj1 (proj2 (importAllData_key_by_key
                           [("blob_p1_0", VNumber 0); ("fresh", VNumber 1)]
                           Scenario.importedStorage "blob_p1_0" H1 H2))
             false).
  - exact (proj2 (proj2 (proj2 (importAllData_key_by_key
                           [("blob_p1_0", VNumber 0); ("fresh", VNumber 1)]
                           Scenario.importedStorage "project_p1" H1 H2)))).
Defined.

End EvictionExtras.
